(** * LEXICON: a shallow embedding of the brief-generation clients

    The executable logic of the repository lives in its browser clients:
    - [frontend/src/services/errorHandler.ts]  (module [ErrorHandler]),
    - the React service [services/api.ts]      (module [Api]),
    - [frontend/src/App.tsx]                   (module [App]),
    - [frontend/src/components/FileUpload.tsx] (module [FileUpload]),
    - the plain-JavaScript web application     (module [WebApp]).
    The server-side orchestrator they talk to is described by the
    specification only (module [Pipeline]).

    JavaScript values that cross a boundary untyped (the [any] payloads of
    axios and socket.io) are modelled by the type [JS.value], exceptions by
    the completion monad [JS.completion].  Definitions come first, module by
    module; the properties follow, grouped by source file. *)

From Stdlib Require Import ZArith List String Ascii Bool Lia.
From stdpp Require Import base option list strings gmap pretty.
Import ListNotations.

Set Warnings "-register-all".
Local Open Scope string_scope.
Local Open Scope Z_scope.

(** ** JavaScript values and the operations the clients apply to them *)
Module JS.

(** Data as delivered by [JSON.parse] (axios, socket.io, localStorage),
    extended with [undefined].  Numbers are integers: the fractional and
    non-finite doubles play no role in the code under study.  Error objects
    are objects holding their own properties ([message], [code],
    [response]). *)
Inductive value : Type :=
| VUndefined
| VNull
| VBool (b : bool)
| VNum (z : Z)
| VStr (s : string)
| VArr (items : list value)
| VObj (props : list (string * value)).

(** A completion is a normal result or a thrown value. *)
Inductive completion (A : Type) : Type :=
| Normal (a : A)
| Throw (err : value).
Arguments Normal {A} a.
Arguments Throw {A} err.

Definition bind {A B} (c : completion A) (k : A -> completion B) : completion B :=
  match c with
  | Normal a => k a
  | Throw e => Throw e
  end.

Definition bind_flip {A B} (k : A -> completion B) (c : completion A) : completion B :=
  bind c k.

#[export] Instance completion_bind : MBind completion := @bind_flip.

Definition TypeError (msg : string) : value := VObj [("message", VStr msg)].

(** [new Error(msg)] for a message that is already a string. *)
Definition Error (msg : string) : value := VObj [("message", VStr msg)].

(** ToBoolean. *)
Definition truthy (v : value) : bool :=
  match v with
  | VUndefined | VNull => false
  | VBool b => b
  | VNum z => negb (z =? 0)
  | VStr s => negb (String.eqb s "")
  | VArr _ | VObj _ => true
  end.

Definition nullish (v : value) : bool :=
  match v with
  | VUndefined | VNull => true
  | _ => false
  end.

(** [a === b].  Two objects (or arrays) that reach the client in different
    messages are different allocations, hence never identical. *)
Definition strict_eq (a b : value) : bool :=
  match a, b with
  | VUndefined, VUndefined => true
  | VNull, VNull => true
  | VBool x, VBool y => Bool.eqb x y
  | VNum x, VNum y => x =? y
  | VStr x, VStr y => String.eqb x y
  | _, _ => false
  end.

Fixpoint own (props : list (string * value)) (k : string) : option value :=
  match props with
  | [] => None
  | (k', v) :: rest => if String.eqb k' k then Some v else own rest k
  end.

Definition type_name (v : value) : string :=
  match v with
  | VUndefined => "undefined"
  | VNull => "null"
  | _ => "object"
  end.

(** [v.k] for a key [k] that no built-in prototype defines (every key the
    clients read, [length] apart, is of that kind).  Reading a property of
    [null] or [undefined] throws. *)
Definition get (v : value) (k : string) : completion value :=
  match v with
  | VUndefined | VNull =>
      Throw (TypeError ("Cannot read properties of " ++ type_name v
                          ++ " (reading '" ++ k ++ "')"))
  | VObj props => Normal (default VUndefined (own props k))
  | VStr s =>
      if String.eqb k "length" then Normal (VNum (Z.of_nat (String.length s)))
      else Normal VUndefined
  | VArr l =>
      if String.eqb k "length" then Normal (VNum (Z.of_nat (List.length l)))
      else Normal VUndefined
  | VBool _ | VNum _ => Normal VUndefined
  end.

(** [v?.k] *)
Definition opt_get (v : value) (k : string) : completion value :=
  if nullish v then Normal VUndefined else get v k.

(** [a || b] on already evaluated operands. *)
Definition or_else (a b : value) : value := if truthy a then a else b.

Definition has_own (props : list (string * value)) (k : string) : bool :=
  match own props k with Some _ => true | None => false end.

(** ToString.  A plain object prints through [Object.prototype.toString];
    an own [toString] entry (data, hence not callable) leaves no way to a
    primitive and the conversion throws.  Arrays join their elements. *)
Fixpoint to_string (v : value) : completion string :=
  match v with
  | VUndefined => Normal "undefined"
  | VNull => Normal "null"
  | VBool true => Normal "true"
  | VBool false => Normal "false"
  | VNum z => Normal (pretty z)
  | VStr s => Normal s
  | VObj props =>
      if has_own props "toString"
      then Throw (TypeError "Cannot convert object to primitive value")
      else Normal "[object Object]"
  | VArr items =>
      (fix join (l : list value) : completion string :=
         match l with
         | [] => Normal ""
         | x :: rest =>
             bind (if nullish x then Normal "" else to_string x) (fun sx =>
             match rest with
             | [] => Normal sx
             | _ => bind (join rest) (fun sr => Normal (sx ++ "," ++ sr))
             end)
         end) items
  end.

Definition is_substring (needle hay : string) : bool :=
  match String.index 0 needle hay with
  | Some _ => true
  | None => false
  end.

(** [recv.includes(needle)] for a receiver that is not nullish: strings
    search a substring, arrays an element; nothing else among the data
    values has a callable [includes]. *)
Definition includes (recv : value) (needle : string) : completion value :=
  match recv with
  | VStr s => Normal (VBool (is_substring needle s))
  | VArr l => Normal (VBool (existsb (strict_eq (VStr needle)) l))
  | _ => Throw (TypeError "includes is not a function")
  end.

(** Members of [Object.prototype], which every object literal inherits. *)
Definition Object_prototype_keys : list string :=
  [ "constructor"; "__defineGetter__"; "__defineSetter__"; "hasOwnProperty";
    "__lookupGetter__"; "__lookupSetter__"; "isPrototypeOf";
    "propertyIsEnumerable"; "toString"; "valueOf"; "__proto__";
    "toLocaleString" ].

Definition inherited (k : string) : bool :=
  existsb (String.eqb k) Object_prototype_keys.

(** [{...o, k: v}]: the own properties of [o] in their order, [k] set. *)
Fixpoint set_prop (props : list (string * value)) (k : string) (v : value)
  : list (string * value) :=
  match props with
  | [] => [(k, v)]
  | (k', v') :: rest =>
      if String.eqb k' k then (k', v) :: rest
      else (k', v') :: set_prop rest k v
  end.

Fixpoint chars (s : string) : list value :=
  match s with
  | EmptyString => []
  | String c rest => VStr (String c EmptyString) :: chars rest
  end.

Definition indexed (l : list value) : list (string * value) :=
  imap (fun i x => (pretty i, x)) l.

(** [{...o}]: the own enumerable properties.  Strings and arrays spread
    into their index keys; the other primitives and the nullish values
    contribute nothing. *)
Definition spread (o : value) : list (string * value) :=
  match o with
  | VObj props => props
  | VArr l => indexed l
  | VStr s => indexed (chars s)
  | _ => []
  end.

End JS.

Import JS.

(** ** services/errorHandler.ts *)
Module ErrorHandler.

(** [Omit<ErrorDetails, 'message'>] *)
Record ErrorDetails : Type := mkDetails {
  d_code : string;
  d_userMessage : string;
  d_recoveryAction : string
}.

(** The values of the [ErrorCodes] object (each key maps to itself). *)
Definition ErrorCodes : list string :=
  [ "INVALID_API_KEY"; "MISSING_API_KEY"; "EXPIRED_API_KEY";
    "INVALID_DOCUMENT_FORMAT"; "DOCUMENT_TOO_LARGE";
    "DOCUMENT_PROCESSING_FAILED"; "NO_DOCUMENTS_PROVIDED";
    "INVALID_BRIEF_TYPE"; "INVALID_JURISDICTION"; "GENERATION_FAILED";
    "GENERATION_TIMEOUT";
    "NETWORK_ERROR"; "SERVER_ERROR"; "SERVICE_UNAVAILABLE";
    "MISSING_REQUIRED_FIELD"; "INVALID_INPUT";
    "RATE_LIMIT_EXCEEDED";
    "UNKNOWN_ERROR" ].

Definition entry (code userMessage recoveryAction : string)
  : string * ErrorDetails :=
  (code, mkDetails code userMessage recoveryAction).

Definition ErrorMessages : list (string * ErrorDetails) :=
  [ entry "INVALID_API_KEY"
      "The API key provided is invalid. Please check your configuration."
      "Verify your API keys in the .env file and restart the application.";
    entry "MISSING_API_KEY"
      "One or more required API keys are missing."
      "Please configure all required API keys (Anthropic, OpenAI, Google) in your environment.";
    entry "EXPIRED_API_KEY"
      "Your API key has expired."
      "Please renew your API subscription and update the key.";
    entry "INVALID_DOCUMENT_FORMAT"
      "The uploaded document format is not supported."
      "Please upload documents in PDF, DOCX, or TXT format.";
    entry "DOCUMENT_TOO_LARGE"
      "The uploaded document exceeds the maximum size limit (100MB)."
      "Please reduce the file size or split into multiple documents.";
    entry "DOCUMENT_PROCESSING_FAILED"
      "Failed to process the uploaded documents."
      "Please check the document format and try again.";
    entry "NO_DOCUMENTS_PROVIDED"
      "No documents were provided for analysis."
      "Please upload at least one document to generate a brief.";
    entry "INVALID_BRIEF_TYPE"
      "The selected brief type is not valid."
      "Please select a valid brief type from the dropdown.";
    entry "INVALID_JURISDICTION"
      "The specified jurisdiction is not valid."
      "Please select a valid jurisdiction.";
    entry "GENERATION_FAILED"
      "Failed to generate the legal brief."
      "Please try again. If the problem persists, contact support.";
    entry "GENERATION_TIMEOUT"
      "Brief generation timed out due to high complexity."
      "Try reducing the number of documents or simplifying the request.";
    entry "NETWORK_ERROR"
      "Network connection error."
      "Please check your internet connection and try again.";
    entry "SERVER_ERROR"
      "An internal server error occurred."
      "Please try again later. If the issue persists, contact support.";
    entry "SERVICE_UNAVAILABLE"
      "The service is temporarily unavailable."
      "Please try again in a few minutes.";
    entry "MISSING_REQUIRED_FIELD"
      "Required information is missing."
      "Please fill in all required fields.";
    entry "INVALID_INPUT"
      "The provided input is invalid."
      "Please check your input and try again.";
    entry "RATE_LIMIT_EXCEEDED"
      "Too many requests. Please slow down."
      "Wait a few minutes before trying again.";
    entry "UNKNOWN_ERROR"
      "An unexpected error occurred."
      "Please try again. If the issue persists, contact support." ].

(** What [ErrorMessages[key]] evaluates to: an entry of the table, a
    member inherited from [Object.prototype] (a function or the prototype
    itself: truthy, with no own enumerable property), or [undefined]. *)
Inductive table_entry : Type :=
| Own (d : ErrorDetails)
| Inherited
| Absent.

Fixpoint assoc {A} (l : list (string * A)) (k : string) : option A :=
  match l with
  | [] => None
  | (k', a) :: rest => if String.eqb k' k then Some a else assoc rest k
  end.

Definition lookup_ErrorMessages (key : string) : table_entry :=
  match assoc ErrorMessages key with
  | Some d => Own d
  | None => if inherited key then Inherited else Absent
  end.

(** The fields an [ApiError] instance carries.  [code], [userMessage] and
    [recoveryAction] are copied from the details object and are
    [undefined] ([None]) when it lacks them. *)
Record ApiError : Type := mkApiError {
  message : string;
  code : option string;
  userMessage : option string;
  recoveryAction : option string;
  statusCode : value
}.

(** [super(details.message)]: the [Error] constructor keeps the empty
    default message for [undefined] and converts anything else with
    ToString. *)
Definition Error_message (m : value) : completion string :=
  match m with
  | VUndefined => Normal ""
  | _ => to_string m
  end.

(** [new ApiError({...details, message: m}, status)] *)
Definition new_ApiError (details : table_entry) (m : value) (status : value)
  : completion ApiError :=
  msg ← Error_message m;
  Normal
    match details with
    | Own d => mkApiError msg (Some (d_code d)) (Some (d_userMessage d))
                 (Some (d_recoveryAction d)) status
    | Inherited | Absent => mkApiError msg None None None status
    end.

(** [ErrorMessages[ErrorCodes.X]] for a literal code [X]. *)
Definition details_of (code : string) : table_entry := lookup_ErrorMessages code.

(** The [switch (status)] of [parseApiError]. *)
Definition by_status (error status data : value) : completion ApiError :=
  if strict_eq status (VNum 400) then
    m ← opt_get data "message";
    has_key ← (if nullish m then Normal VUndefined else includes m "API key");
    if truthy has_key then
      dm ← get data "message";
      new_ApiError (details_of "INVALID_API_KEY") dm status
    else
      dm ← get data "message";
      new_ApiError (details_of "INVALID_INPUT") (or_else dm (VStr "Bad request")) status
  else if strict_eq status (VNum 401) then
    new_ApiError (details_of "INVALID_API_KEY") (VStr "Authentication failed") status
  else if strict_eq status (VNum 403) then
    new_ApiError (details_of "EXPIRED_API_KEY") (VStr "Access forbidden") status
  else if strict_eq status (VNum 413) then
    new_ApiError (details_of "DOCUMENT_TOO_LARGE") (VStr "Payload too large") status
  else if strict_eq status (VNum 429) then
    new_ApiError (details_of "RATE_LIMIT_EXCEEDED") (VStr "Rate limit exceeded") status
  else if strict_eq status (VNum 500) || strict_eq status (VNum 502)
          || strict_eq status (VNum 503) then
    dm ← opt_get data "message";
    new_ApiError (details_of "SERVER_ERROR") (or_else dm (VStr "Server error")) status
  else if strict_eq status (VNum 504) then
    new_ApiError (details_of "GENERATION_TIMEOUT") (VStr "Request timeout") status
  else
    dm ← opt_get data "message";
    em ← get error "message";
    new_ApiError (details_of "UNKNOWN_ERROR") (or_else dm em) status.

(** [parseApiError(error)]; [online] is the reading of
    [navigator.onLine]. *)
Definition parseApiError (online : bool) (error : value) : completion ApiError :=
  response ← get error "response";
  if truthy response then
    status ← get response "status";
    data ← get response "data";
    error_code ← opt_get data "error_code";
    specific ←
      (if truthy error_code then
         key ← to_string error_code;
         match lookup_ErrorMessages key with
         | Absent => Normal None
         | errorDetails =>
             dm ← get data "message";
             em ← get error "message";
             e ← new_ApiError errorDetails (or_else dm em) status;
             Normal (Some e)
         end
       else Normal None);
    match specific with
    | Some e => Normal e
    | None => by_status error status data
    end
  else
    ecode ← get error "code";
    emsg ← get error "message";
    timeout ←
      (if strict_eq ecode (VStr "ECONNABORTED") then Normal (VBool true)
       else if nullish emsg then Normal VUndefined
       else includes emsg "timeout");
    if truthy timeout then
      new_ApiError (details_of "GENERATION_TIMEOUT") (VStr "Request timed out") VUndefined
    else if strict_eq ecode (VStr "ERR_NETWORK") || negb online then
      new_ApiError (details_of "NETWORK_ERROR") (VStr "Network connection lost") VUndefined
    else
      new_ApiError (details_of "UNKNOWN_ERROR")
        (or_else emsg (VStr "Unknown error occurred")) VUndefined.

(** The postcondition the translation boundary is meant to give. *)
Definition well_formed (e : ApiError) : Prop :=
  (exists c, code e = Some c /\ In c ErrorCodes) /\
  (exists m, userMessage e = Some m /\ m <> "").

Definition well_formedb (e : ApiError) : bool :=
  match code e, userMessage e with
  | Some c, Some m => existsb (String.eqb c) ErrorCodes && negb (String.eqb m "")
  | _, _ => false
  end.

End ErrorHandler.

(** ** services/api.ts *)
Module Api.

(** [BriefType] of types.ts *)
Inductive BriefType : Type :=
| daubert_motion
| daubert_response
| frye_motion
| frye_response
| motion_in_limine.

Definition BriefType_name (b : BriefType) : string :=
  match b with
  | daubert_motion => "daubert_motion"
  | daubert_response => "daubert_response"
  | frye_motion => "frye_motion"
  | frye_response => "frye_response"
  | motion_in_limine => "motion_in_limine"
  end.

(** The [stage] alternatives of [BriefGenerationStatus], in the order of
    their declaration, which is the order of the pipeline. *)
Inductive Stage : Type :=
| uploading
| anonymization
| strategic_analysis
| legal_research
| scientific_research
| brief_writing
| final_review
| completed
| error.

Definition stage_index (s : Stage) : nat :=
  match s with
  | uploading => 0
  | anonymization => 1
  | strategic_analysis => 2
  | legal_research => 3
  | scientific_research => 4
  | brief_writing => 5
  | final_review => 6
  | completed => 7
  | error => 8
  end.

(** The [stage] field at run time: a declared stage, or the member of
    [Object.prototype] that [progressMap] inherits under the looked-up
    key. *)
Inductive stage_value : Type :=
| Declared (s : Stage)
| Proto (key : string).

Record BriefGenerationStatus : Type := mkStatus {
  stage : stage_value;
  progress : value;
  currentAgent : value;
  message : value
}.

Record UploadedFile : Type := mkUploaded {
  id : string;
  name : string;
  size : Z;
  type : string;
  uploadProgress : Z
}.

(** [GenerateBriefRequest]; the observer [onProgress] is the log of the
    statuses it is called with. *)
Record GenerateBriefRequest : Type := mkRequest {
  briefType : BriefType;
  files : list UploadedFile;
  expertName : string;
  jurisdiction : string
}.

(** The part of [GenerateBriefResponse] that the service fills in. *)
Record GenerateBriefResponse : Type := mkResponse {
  brief : value;
  wordCount : value;
  citations : Z;
  processingTime : Z
}.

Definition briefTypeMapping : list (string * string) :=
  [ ("daubert_motion", "Daubert Motion");
    ("daubert_response", "Response to Daubert Challenge");
    ("frye_motion", "Frye Motion");
    ("frye_response", "Response to Frye Challenge");
    ("motion_in_limine", "Motion in Limine") ].

(** The JSON body of [POST /api/generate-brief]. *)
Record PostBody : Type := mkBody {
  expert_name : string;
  strategy : string;
  motion_type : string;
  body_jurisdiction : string
}.

Definition post_body (r : GenerateBriefRequest) : PostBody :=
  let bt := BriefType_name (briefType r) in
  mkBody (expertName r)
    (if is_substring "response" bt then "support" else "challenge")
    (default bt (ErrorHandler.assoc briefTypeMapping bt))
    (jurisdiction r).

Definition progressMap : list (string * Stage) :=
  [ ("Uploading documents", uploading);
    ("Strategic analysis", strategic_analysis);
    ("Legal research", legal_research);
    ("Scientific research", scientific_research);
    ("Writing brief", brief_writing);
    ("Finalizing", final_review) ].

(** [progressMap[key] || 'uploading'] *)
Definition lookup_progressMap (key : string) : stage_value :=
  match ErrorHandler.assoc progressMap key with
  | Some s => Declared s
  | None => if inherited key then Proto key else Declared uploading
  end.

(** The status object built by the [progress_update] listener. *)
Definition status_of_update (data : value) : completion BriefGenerationStatus :=
  st ← get data "stage";
  key ← to_string st;
  pr ← get data "progress";
  ag ← get data "agent";
  Normal (mkStatus (lookup_progressMap key) pr (or_else ag (VStr "System")) st).

(** The response object built by the [brief_complete] listener on
    success; [now] is the reading of [Date.now()]. *)
Definition response_of_complete (now : Z) (data : value)
  : completion GenerateBriefResponse :=
  excerpt ← get data "brief_excerpt";
  full ← get data "full_result";
  len ← opt_get full "length";
  Normal (mkResponse (or_else excerpt (VStr "Brief generated successfully"))
            (or_else len (VNum 1000)) 10 now).

Inductive promise_state : Type :=
| Pending
| Fulfilled (r : GenerateBriefResponse)
| Rejected (e : ErrorHandler.ApiError).

Definition settled (p : promise_state) : bool :=
  match p with Pending => false | _ => true end.

(** [resolve]/[reject] of the promise: only the first call has an
    effect. *)
Definition settle (p outcome : promise_state) : promise_state :=
  match p with
  | Pending => outcome
  | _ => p
  end.

(** One run of [generateBrief]: the promise it returned, the calls of
    [onProgress] so far, and whether the socket is still connected. *)
Record run : Type := mkRun {
  promise : promise_state;
  emitted : list BriefGenerationStatus;
  connected : bool
}.

Definition start : run := mkRun Pending [] true.

(** What the browser tells the handler that reads it. *)
Record env : Type := mkEnv {
  online : bool;
  now : Z
}.

(** What can happen to a run: the socket connects or fails to (both are
    only logged), one of the two socket messages it listens to arrives,
    or the POST settles ([data] is [response.data]). *)
Inductive event : Type :=
| connect
| connect_error (err : value)
| progress_update (data : value)
| brief_complete (data : value)
| post_fulfilled (data : value)
| post_rejected (err : value).

(** The [.catch] handler of the POST. *)
Definition on_catch (e : env) (s : run) (err : value) : run :=
  match ErrorHandler.parseApiError (online e) err with
  | Normal parsed => mkRun (settle (promise s) (Rejected parsed)) (emitted s) false
  | Throw _ => mkRun (promise s) (emitted s) false
  end.

(** The [.then] handler of the POST: [Normal] when it called
    [onProgress], [Throw] with what it threw. *)
Definition on_then (data : value) : completion BriefGenerationStatus :=
  ok ← get data "success";
  if truthy ok then
    Normal (mkStatus (Declared uploading) (VNum 10) (VStr "System")
              (VStr "Processing request..."))
  else
    err ← get data "error";
    msg ← to_string (or_else err (VStr "Failed to start generation"));
    Throw (Error msg).

Definition on_brief_complete (e : env) (s : run) (data : value) : run :=
  let s' := mkRun (promise s) (emitted s) false in
  match get data "success" with
  | Throw _ => s'
  | Normal ok =>
      if truthy ok then
        match response_of_complete (now e) data with
        | Normal r => mkRun (settle (promise s) (Fulfilled r)) (emitted s) false
        | Throw _ => s'
        end
      else
        match
          err ← get data "error";
          ErrorHandler.parseApiError (online e)
            (VObj [("response",
                    VObj [("data", VObj [("message", err)]);
                          ("status", VNum 500)])])
        with
        | Normal parsed => mkRun (settle (promise s) (Rejected parsed)) (emitted s) false
        | Throw _ => s'
        end
  end.

Definition step (s : run) (occ : env * event) : run :=
  let (e, ev) := occ in
  match ev with
  | connect | connect_error _ => s
  | progress_update data =>
      if connected s then
        match status_of_update data with
        | Normal st => mkRun (promise s) (emitted s ++ [st]) (connected s)
        | Throw _ => s
        end
      else s
  | brief_complete data =>
      if connected s then on_brief_complete e s data else s
  | post_fulfilled data =>
      match on_then data with
      | Normal st => mkRun (promise s) (emitted s ++ [st]) (connected s)
      | Throw err => on_catch e s err
      end
  | post_rejected err => on_catch e s err
  end.

(** [generateBrief(request)] followed by the events of [trace]. *)
Definition generateBrief (trace : list (env * event)) : run :=
  fold_left step trace start.

(** *** simulateGenerateBrief *)

(** [String.prototype.toUpperCase] and the whitespace class [\s], on
    ASCII text. *)
Definition upper_ascii (c : ascii) : ascii :=
  let n := nat_of_ascii c in
  if ((97 <=? n) && (n <=? 122))%nat then ascii_of_nat (n - 32) else c.

Fixpoint map_string (f : ascii -> ascii) (s : string) : string :=
  match s with
  | EmptyString => EmptyString
  | String c rest => String (f c) (map_string f rest)
  end.

Definition toUpperCase (s : string) : string := map_string upper_ascii s.

(** [s.replace(/_/g, ' ')] *)
Definition underscores_to_spaces (s : string) : string :=
  map_string (fun c => if Ascii.eqb c "_" then " "%char else c) s.

Definition is_space (c : ascii) : bool :=
  let n := nat_of_ascii c in
  ((9 <=? n) && (n <=? 13) || (n =? 32))%nat.

(** The number of maximal whitespace runs of [s]; [in_run] tells whether
    the previous character was whitespace. *)
Fixpoint space_runs (in_run : bool) (s : string) : nat :=
  match s with
  | EmptyString => 0
  | String c rest =>
      if is_space c
      then (if in_run then 0 else 1) + space_runs true rest
      else space_runs false rest
  end%nat.

(** [s.split(/\s+/).length] *)
Definition split_ws_length (s : string) : Z :=
  Z.of_nat (S (space_runs false s)).

Definition newline : string := String (ascii_of_nat 10) EmptyString.

Fixpoint unlines (l : list string) : string :=
  match l with
  | [] => ""
  | [x] => x
  | x :: rest => x ++ newline ++ unlines rest
  end.

Definition stages : list BriefGenerationStatus :=
  [ mkStatus (Declared uploading) (VNum 20) (VStr "System")
      (VStr "Processing uploaded files...");
    mkStatus (Declared strategic_analysis) (VNum 35) (VStr "Claude Opus 4")
      (VStr "Analyzing case strategy and identifying key arguments...");
    mkStatus (Declared legal_research) (VNum 50) (VStr "O3 Pro Deep Research")
      (VStr "Searching for supporting precedents in legal databases...");
    mkStatus (Declared scientific_research) (VNum 65) (VStr "GPT-4.1")
      (VStr "Reviewing medical literature and expert methodologies...");
    mkStatus (Declared brief_writing) (VNum 80) (VStr "GPT-4.5")
      (VStr "Drafting comprehensive legal arguments...");
    mkStatus (Declared final_review) (VNum 95) (VStr "Gemini 2.5 Pro")
      (VStr "Fact-checking and polishing final brief...");
    mkStatus (Declared completed) (VNum 100) (VStr "System")
      (VStr "Brief generation complete!") ].

Definition sampleBrief (r : GenerateBriefRequest) : string :=
  let bt := BriefType_name (briefType r) in
  let daubert := is_substring "daubert" bt in
  unlines
  [ "UNITED STATES DISTRICT COURT";
    toUpperCase (jurisdiction r) ++ " DISTRICT";
    "";
    "Case No. XX-XXXX";
    "";
    "PLAINTIFF,";
    "v.";
    "DEFENDANT.";
    "";
    toUpperCase (underscores_to_spaces bt);
    "";
    "NOW COMES the Plaintiff, by and through undersigned counsel, and respectfully submits this "
      ++ underscores_to_spaces bt ++ " and states as follows:";
    "";
    "I. INTRODUCTION";
    "";
    "This motion seeks to "
      ++ (if daubert
          then "exclude the testimony of opposing expert witness pursuant to Federal Rule of Evidence 702 and Daubert v. Merrell Dow Pharmaceuticals, Inc."
          else "exclude certain evidence from trial")
      ++ ".";
    "";
    "II. STATEMENT OF FACTS";
    "";
    "[Generated facts based on uploaded documents...]";
    "";
    "III. LEGAL STANDARD";
    "";
    (if daubert
     then "Under Daubert, trial judges serve as gatekeepers to ensure expert testimony is both relevant and reliable..."
     else "The court has broad discretion to exclude evidence under Federal Rules of Evidence...");
    "";
    "IV. ARGUMENT";
    "";
    "A. The Expert's Methodology Lacks Scientific Validity";
    "   1. No peer review or general acceptance";
    "   2. Unknown error rate";
    "   3. Failure to follow standard protocols";
    "";
    "B. The Testimony Will Not Assist the Trier of Fact";
    "   1. Confusing and misleading conclusions";
    "   2. Prejudicial impact outweighs probative value";
    "";
    "V. CONCLUSION";
    "";
    "For the foregoing reasons, Plaintiff respectfully requests that this Court grant this motion and exclude the challenged testimony.";
    "";
    "Respectfully submitted,";
    "";
    "[Law Firm Name]";
    "[Attorney Name]";
    "[Bar Number]";
    "[Address]";
    "[Phone]";
    "[Email]";
    "";
    "Generated by LEXICON v0.1.5";
    "AI Agents: Claude Opus 4, O3 Pro Deep Research, GPT-4.1, GPT-4.5, Gemini 2.5 Pro" ].

(** [simulateGenerateBrief(request)]: the statuses passed to
    [onProgress], in order, and the value the promise resolves with. *)
Definition simulateGenerateBrief (r : GenerateBriefRequest)
  : list BriefGenerationStatus * GenerateBriefResponse :=
  (stages,
   mkResponse (VStr (sampleBrief r)) (VNum (split_ws_length (sampleBrief r)))
     15 14000).

End Api.

(** ** App.tsx *)
Module App.

Import Api.

(** The component state ([useState] cells). *)
Record state : Type := mkState {
  uploadedFiles : list UploadedFile;
  selectedBriefType : option BriefType;
  selectedExpert : string;
  jurisdiction : string;
  generationStatus : option BriefGenerationStatus;
  generatedBrief : option value;
  strategicRecommendations : option value;
  briefMetadata : option GenerateBriefResponse
}.

Definition setGenerationStatus (st : BriefGenerationStatus) (s : state) : state :=
  mkState (uploadedFiles s) (selectedBriefType s) (selectedExpert s)
    (jurisdiction s) (Some st) (generatedBrief s)
    (strategicRecommendations s) (briefMetadata s).

(** [handleFilesUpload] *)
Definition handleFilesUpload (new_files : list UploadedFile) (s : state) : state :=
  mkState (uploadedFiles s ++ new_files) (selectedBriefType s)
    (selectedExpert s) (jurisdiction s) (generationStatus s)
    (generatedBrief s) (strategicRecommendations s) (briefMetadata s).

(** [handleGenerateBrief] up to its [await]: the new state and the
    request handed to [generateBrief], if one is made. *)
Definition handleGenerateBrief (s : state) : state * option GenerateBriefRequest :=
  match selectedBriefType s with
  | None => (s, None)
  | Some bt =>
      if (List.length (uploadedFiles s) =? 0)%nat || String.eqb (selectedExpert s) ""
      then (s, None)
      else
        (setGenerationStatus
           (mkStatus (Declared uploading) (VNum 0) (VStr "System")
              (VStr "Uploading case files...")) s,
         Some (mkRequest bt (uploadedFiles s) (selectedExpert s) (jurisdiction s)))
  end.

(** The continuation of [handleGenerateBrief] once the promise of
    [generateBrief] has settled: the [try] body after the [await], or the
    [catch] block.  [result.strategicRecommendations] is a field the
    service never sets. *)
Definition after_await (p : promise_state) (s : state) : state :=
  match p with
  | Pending => s
  | Fulfilled result =>
      mkState (uploadedFiles s) (selectedBriefType s) (selectedExpert s)
        (jurisdiction s)
        (Some (mkStatus (Declared completed) (VNum 100) (VStr "System")
                 (VStr "Brief generation complete!")))
        (Some (brief result)) (Some VUndefined) (Some result)
  | Rejected _ =>
      setGenerationStatus
        (mkStatus (Declared error) (VNum 0) (VStr "System")
           (VStr "Error generating brief. Please try again.")) s
  end.

(** One event of a running generation, seen from the component: the
    service handles it, every new status reaches [setGenerationStatus]
    through [onProgress], and the continuation runs when the promise
    settles. *)
Definition on_event (sr : state * run) (occ : env * event) : state * run :=
  let (s, r) := sr in
  let r' := Api.step r occ in
  let fresh := skipn (List.length (emitted r)) (emitted r') in
  let s1 := fold_left (fun acc st => setGenerationStatus st acc) fresh s in
  let s2 := if settled (promise r') && negb (settled (promise r))
            then after_await (promise r') s1 else s1 in
  (s2, r').

(** A click on the generate button followed by the events of [trace]. *)
Definition session (s : state) (trace : list (env * event)) : state * option run :=
  match handleGenerateBrief s with
  | (s', None) => (s', None)
  | (s', Some _) =>
      let (s'', r) := fold_left on_event trace (s', Api.start) in
      (s'', Some r)
  end.

(** The brief on display, given the promise: the one it was fulfilled
    with, or what was displayed before the click. *)
Definition displays (before : option value) (sr : state * run) : Prop :=
  match promise (snd sr) with
  | Fulfilled result => generatedBrief (fst sr) = Some (brief result)
  | _ => generatedBrief (fst sr) = before
  end.

(** What a whole session leaves on display. *)
Definition session_ok (s : state) (tr : list (env * event)) : Prop :=
  match session s tr with
  | (s', None) => s' = s
  | (s', Some r) =>
      r = generateBrief tr /\
      match promise r with
      | Fulfilled result => generatedBrief s' = Some (brief result)
      | _ => generatedBrief s' = generatedBrief s
      end
  end.

End App.

(** ** components/FileUpload.tsx *)
Module FileUpload.

(** The browser's [File]: what the dropzone looks at. *)
Record File : Type := mkFile {
  file_name : string;
  file_type : string;
  file_size : Z
}.

(** The [accept] option handed to [useDropzone]. *)
Definition accept : list (string * list string) :=
  [ ("application/pdf", [".pdf"]);
    ("application/msword", [".doc"]);
    ("application/vnd.openxmlformats-officedocument.wordprocessingml.document",
     [".docx"]);
    ("text/plain", [".txt"]);
    ("image/*", [".png"; ".jpg"; ".jpeg"; ".gif"]) ].

Definition lower_ascii (c : ascii) : ascii :=
  let n := nat_of_ascii c in
  if ((65 <=? n) && (n <=? 90))%nat then ascii_of_nat (n + 32) else c.

Definition toLowerCase (s : string) : string := Api.map_string lower_ascii s.

Fixpoint rev_string (acc s : string) : string :=
  match s with
  | EmptyString => acc
  | String c rest => rev_string (String c acc) rest
  end.

Definition endsWith (s suffix : string) : bool :=
  String.prefix (rev_string "" suffix) (rev_string "" s).

(** [s.replace(/\/.*$/, '')]: the part before the first slash. *)
Fixpoint before_slash (s : string) : string :=
  match s with
  | EmptyString => EmptyString
  | String c rest =>
      if Ascii.eqb c "/" then EmptyString else String c (before_slash rest)
  end.

(** The list the dropzone derives from [accept]: every MIME type
    followed by its extensions. *)
Definition accept_attr : list string :=
  flat_map (fun entry => fst entry :: snd entry) accept.

(** The dropzone's matching rule for one accepted type: an extension
    matches the end of the file name, a wildcard the part of the MIME type
    before the slash, anything else the whole MIME type; all without
    regard to case. *)
Definition matches (f : File) (valid : string) : bool :=
  let validType := toLowerCase valid in
  let mimeType := toLowerCase (file_type f) in
  if String.prefix "." validType
  then endsWith (toLowerCase (file_name f)) validType
  else if endsWith validType "/*"
  then String.eqb (before_slash mimeType) (before_slash validType)
  else String.eqb mimeType validType.

(** The dropzone's verdict on a file, as its file selector hands it
    over. *)
Definition fileAccepted (f : File) : bool :=
  String.eqb (file_type f) "application/x-moz-file"
  || existsb (matches f) accept_attr.

(** [name.split('.').pop()], when [name] has a dot: the text after the
    last one. *)
Fixpoint after_last_dot (name : string) : option string :=
  match name with
  | EmptyString => None
  | String c rest =>
      match after_last_dot rest with
      | Some ext => Some ext
      | None => if Ascii.eqb c "." then Some rest else None
      end
  end.

(** The file selector of the dropzone library completes every file before
    the dropzone judges it: a file with a dot in its name and no MIME type
    gets the type that the library's table of common types lists for the
    lower-cased text after the last dot, if it lists one.  The table belongs
    to the library, not to the repository: it is the parameter [types]. *)
Definition withMimeType (types : string -> option string) (f : File) : File :=
  match after_last_dot (file_name f) with
  | Some ext =>
      if String.eqb (file_type f) "" then
        match types (toLowerCase ext) with
        | Some t =>
            if String.eqb t "" then f else mkFile (file_name f) t (file_size f)
        | None => f
        end
      else f
  | None => f
  end.

(** The thumbnail caches that the selector leaves out of a drop. *)
Definition FILES_TO_IGNORE : list string := [".DS_Store"; "Thumbs.db"].

(** How files reach the zone: dragged and dropped on it, or chosen in the
    file dialog it opens. *)
Inductive gesture : Type :=
| dropped_on
| chosen_in_dialog.

(** The files the selector hands over for the [files] of an event. *)
Definition fromEvent (types : string -> option string) (g : gesture)
    (files : list File) : list File :=
  let completed := map (withMimeType types) files in
  match g with
  | dropped_on =>
      List.filter
        (fun f => negb (existsb (String.eqb (file_name f)) FILES_TO_IGNORE))
        completed
  | chosen_in_dialog => completed
  end.

(** The entry [onDrop] builds for an accepted file; [id] is the
    identifier drawn from [Math.random]. *)
Definition uploaded (id : string) (f : File) : Api.UploadedFile :=
  Api.mkUploaded id (file_name f) (file_size f) (file_type f) 100.

(** [onDrop(acceptedFiles)]: the argument of [onFilesUpload];
    [draw i] is the identifier drawn for the [i]-th file. *)
Definition onDrop (draw : nat -> string) (acceptedFiles : list File)
  : list Api.UploadedFile :=
  imap (fun i f => uploaded (draw i) f) acceptedFiles.

(** The browser's [files] reach the zone by the gesture [g]: of the files
    the selector hands over, the dropzone passes the accepted ones to
    [onDrop]; the component registers no handler for the others. *)
Definition drop (types : string -> option string) (g : gesture)
    (draw : nat -> string) (files : list File) (s : App.state) : App.state :=
  App.handleFilesUpload
    (onDrop draw (List.filter fileAccepted (fromEvent types g files))) s.

(** The kinds of file the dropzone lets through, spelled out. *)
Definition accepted_kind (f : File) : Prop :=
  file_type f = "application/x-moz-file"
  \/ In (toLowerCase (file_type f))
       [ "application/pdf"; "application/msword";
         "application/vnd.openxmlformats-officedocument.wordprocessingml.document";
         "text/plain" ]
  \/ before_slash (toLowerCase (file_type f)) = "image"
  \/ exists ext,
       In ext [".pdf"; ".doc"; ".docx"; ".txt"; ".png"; ".jpg"; ".jpeg"; ".gif"]
       /\ endsWith (toLowerCase (file_name f)) ext = true.

(** The type the table lists for a file name: the one of the lower-cased
    text after its last dot, or none. *)
Definition listed_type (types : string -> option string) (name : string) : string :=
  match after_last_dot name with
  | Some ext => default "" (types (toLowerCase ext))
  | None => ""
  end.

(** The formats the specification names for the intake: PDF, DOCX, TXT
    and the legacy word-processor formats (Word's [.doc], WordPerfect's
    [.wpd]), by MIME type or by extension. *)
Definition listed_document (f : File) : bool :=
  existsb (String.eqb (toLowerCase (file_type f)))
    [ "application/pdf";
      "application/vnd.openxmlformats-officedocument.wordprocessingml.document";
      "text/plain"; "application/msword"; "application/vnd.wordperfect" ]
  || existsb (endsWith (toLowerCase (file_name f)))
       [ ".pdf"; ".docx"; ".txt"; ".doc"; ".wpd" ].

End FileUpload.

(** ** The web application script (Socket.IO client of the Flask server) *)
Module WebApp.

(** A request handed to [fetch]. *)
Record request : Type := mkFetch {
  url : string;
  body : option value
}.

(** The script's global variables and the part of the page it touches.
    The page is a store from (element, property) to the value last
    assigned; the conversion the DOM applies on assignment is not part of
    the model.  [localStorage] is the Web Storage map, without a quota. *)
Record ui : Type := mkUi {
  currentBriefTask : value;
  currentProcessTask : value;
  briefHistory : list (list (string * value));
  localStorage : gmap string string;
  dom : gmap (string * string) value;
  alerts : list string;
  fetches : list request
}.

Definition initial : ui := mkUi VNull VNull [] ∅ ∅ [] [].

(** Statements of a handler: they read and write the page and may throw;
    what was written before a throw stays written. *)
Definition action (A : Type) : Type := ui -> completion A * ui.

Definition ret {A} (a : A) : action A := fun u => (Normal a, u).

Definition seq {A B} (k : A -> action B) (a : action A) : action B :=
  fun u =>
    match a u with
    | (Normal x, u') => k x u'
    | (Throw e, u') => (Throw e, u')
    end.

#[export] Instance action_bind : MBind action := @seq.

Definition lift {A} (c : completion A) : action A := fun u => (c, u).

Definition read {A} (f : ui -> A) : action A := fun u => (Normal (f u), u).

Definition write (f : ui -> ui) : action unit := fun u => (Normal tt, f u).

(** The state a listener leaves behind. *)
Definition exec (a : action unit) (u : ui) : ui := snd (a u).

Definition set_dom (element property : string) (v : value) : action unit :=
  write (fun u => mkUi (currentBriefTask u) (currentProcessTask u)
                    (briefHistory u) (localStorage u)
                    (<[(element, property) := v]> (dom u)) (alerts u) (fetches u)).

Definition alert (msg : string) : action unit :=
  write (fun u => mkUi (currentBriefTask u) (currentProcessTask u)
                    (briefHistory u) (localStorage u) (dom u)
                    (alerts u ++ [msg]) (fetches u)).

Definition fetch (r : request) : action unit :=
  write (fun u => mkUi (currentBriefTask u) (currentProcessTask u)
                    (briefHistory u) (localStorage u) (dom u) (alerts u)
                    (fetches u ++ [r])).

Definition set_currentBriefTask (v : value) : action unit :=
  write (fun u => mkUi v (currentProcessTask u) (briefHistory u)
                    (localStorage u) (dom u) (alerts u) (fetches u)).

Definition set_currentProcessTask (v : value) : action unit :=
  write (fun u => mkUi (currentBriefTask u) v (briefHistory u)
                    (localStorage u) (dom u) (alerts u) (fetches u)).

Definition set_briefHistory (h : list (list (string * value))) : action unit :=
  write (fun u => mkUi (currentBriefTask u) (currentProcessTask u) h
                    (localStorage u) (dom u) (alerts u) (fetches u)).

(** A change of the page as a whole. *)
Definition update_dom (f : gmap (string * string) value -> gmap (string * string) value)
  : action unit :=
  write (fun u => mkUi (currentBriefTask u) (currentProcessTask u)
                    (briefHistory u) (localStorage u) (f (dom u))
                    (alerts u) (fetches u)).

(** [localStorage.setItem(key, text)] *)
Definition setItem (key text : string) : action unit :=
  write (fun u => mkUi (currentBriefTask u) (currentProcessTask u)
                    (briefHistory u) (<[key := text]> (localStorage u))
                    (dom u) (alerts u) (fetches u)).

(** [document.getElementById(element).value] of a form control. *)
Definition input_value (element : string) (u : ui) : value :=
  default (VStr "") (dom u !! (element, "value")).

(** [v.toLocaleString()], for what it can throw: there is no method to
    call on a nullish value, and on an object with an own (data)
    [toLocaleString] or [toString] entry. *)
Definition toLocaleString (v : value) : completion unit :=
  _ ← get v "toLocaleString";
  match v with
  | VObj props =>
      if has_own props "toLocaleString"
      then Throw (TypeError "toLocaleString is not a function")
      else _ ← to_string v; Normal tt
  | _ => _ ← to_string v; Normal tt
  end.

(** ['text' + v] *)
Definition concat (text : string) (v : value) : completion string :=
  s ← to_string v; Normal (text ++ s).

Definition quote : string := String (ascii_of_nat 34) EmptyString.

Definition empty_history_row : string :=
  "<tr><td colspan=" ++ quote ++ "5" ++ quote ++ " class=" ++ quote
    ++ "text-center text-muted" ++ quote
    ++ ">No briefs generated yet</td></tr>".

(** The texts interpolated into one row of the history table. *)
Definition history_row (item : list (string * value)) : completion value :=
  let field k := default VUndefined (own item k) in
  date ← to_string (field "date");
  expert ← to_string (field "expert");
  strategy ← to_string (field "strategy");
  motion ← to_string (field "motion_type");
  Normal (VArr [VStr date; VStr expert; VStr strategy; VStr motion]).

Fixpoint history_rows (h : list (list (string * value))) : completion (list value) :=
  match h with
  | [] => Normal []
  | item :: rest =>
      row ← history_row item;
      rows ← history_rows rest;
      Normal (row :: rows)
  end.

(** [updateHistoryTable()]; the table body is kept as the list of its
    rows' texts. *)
Definition updateHistoryTable : action unit :=
  h ← read briefHistory;
  match h with
  | [] => set_dom "history-table" "innerHTML" (VStr empty_history_row)
  | _ =>
      rows ← lift (history_rows h);
      set_dom "history-table" "innerHTML" (VArr rows)
  end.

(** [updateBriefProgress(stage, progress)] *)
Definition updateBriefProgress (stage progress : value) : action unit :=
  width ← lift (s ← to_string progress; Normal (s ++ "%"));
  _ ← set_dom "#generation-progress .progress-bar" "style.width" (VStr width);
  set_dom "progress-stage" "textContent" stage.

(** [updateUploadProgress(percent, status)] *)
Definition updateUploadProgress (percent status : value) : action unit :=
  width ← lift (s ← to_string percent; Normal (s ++ "%"));
  _ ← set_dom "#upload-progress .progress-bar" "style.width" (VStr width);
  set_dom "upload-status" "textContent" status.

Section Script.

(** [JSON.stringify] on the history array. *)
Variable stringify : list (list (string * value)) -> string.

(** The script calls [updateProcessingProgress] and does not define
    it. *)
Variable updateProcessingProgress : value -> value -> action unit.

(** [document.getElementById(form).reset()] puts the controls of the form
    back to their defaults.  Which controls a form has is markup, which the
    script does not hold: what the call does to the page is left open. *)
Variable reset_form :
  string -> gmap (string * string) value -> gmap (string * string) value.

(** [addToHistory(briefData)]; [date] is [new Date().toISOString()]. *)
Definition addToHistory (date : string) (briefData : value) : action unit :=
  h ← read briefHistory;
  let unshifted := set_prop (spread briefData) "date" (VStr date) :: h in
  _ ← set_briefHistory unshifted;
  _ ← set_briefHistory (firstn 50 unshifted);
  h' ← read briefHistory;
  _ ← setItem "lexicon_history" (stringify h');
  updateHistoryTable.

(** [handleBriefComplete(data)]; the metadata card is kept as the list
    of its interpolated values. *)
Definition handleBriefComplete (date : string) (data : value) : action unit :=
  _ ← set_dom "generation-progress" "style.display" (VStr "none");
  success ← lift (get data "success");
  if truthy success then
    _ ← set_dom "generation-result" "style.display" (VStr "block");
    filename ← lift (get data "filename");
    _ ← set_dom "download-brief" "dataset.filename" filename;
    _ ← set_dom "modal-download" "dataset.filename" filename;
    excerpt ← lift (get data "brief_excerpt");
    _ ← set_dom "brief-preview" "textContent" excerpt;
    metadata ← lift (get data "full_result");
    card ← lift (
      expert ← get metadata "expert";
      _ ← to_string expert;
      strategy ← get metadata "strategy";
      _ ← to_string strategy;
      motion ← get metadata "motion_type";
      _ ← to_string motion;
      len ← get metadata "length";
      _ ← toLocaleString len;
      timestamp ← get metadata "timestamp";
      _ ← to_string timestamp;
      Normal (VArr [expert; strategy; motion; len; timestamp]));
    _ ← set_dom "brief-metadata" "innerHTML" card;
    _ ← addToHistory date metadata;
    _ ← set_dom "download-brief" "onclick" filename;
    set_dom "modal-download" "onclick" filename
  else
    err ← lift (get data "error");
    msg ← lift (concat "Brief generation failed: " err);
    alert msg.

(** [handleProcessingComplete(data)] *)
Definition handleProcessingComplete (data : value) : action unit :=
  _ ← set_dom "upload-progress" "style.display" (VStr "none");
  success ← lift (get data "success");
  if truthy success then
    msg ← lift (
      summary ← get data "summary";
      processed ← get summary "successfully_processed";
      a ← concat ("Processing complete!" ++ Api.newline ++ Api.newline
                    ++ "Processed: ") processed;
      failed ← get summary "failed";
      b ← concat (a ++ Api.newline ++ "Failed: ") failed;
      vectors ← get summary "total_vectors_created";
      concat (b ++ Api.newline ++ "Vectors created: ") vectors);
    _ ← alert msg;
    _ ← update_dom (reset_form "upload-form");
    _ ← set_dom "file-list" "innerHTML" (VStr "");
    _ ← set_dom "#upload-form button[type=submit]" "disabled" (VBool true);
    _ ← fetch (mkFetch "/api/experts" None);
    fetch (mkFetch "/api/status" None)
  else
    err ← lift (get data "error");
    msg ← lift (concat "Processing failed: " err);
    alert msg.

(** The four listeners installed by [setupSocketListeners]. *)
Inductive socket_event : Type :=
| brief_progress (data : value)
| brief_complete (data : value)
| processing_progress (data : value)
| processing_complete (data : value).

Definition payload (ev : socket_event) : value :=
  match ev with
  | brief_progress d | brief_complete d
  | processing_progress d | processing_complete d => d
  end.

(** The global a listener compares [data.task_id] with. *)
Definition tracked (ev : socket_event) (u : ui) : value :=
  match ev with
  | brief_progress _ | brief_complete _ => currentBriefTask u
  | processing_progress _ | processing_complete _ => currentProcessTask u
  end.

Definition listener (date : string) (ev : socket_event) : action unit :=
  task_id ← lift (get (payload ev) "task_id");
  current ← read (tracked ev);
  if strict_eq task_id current then
    match ev with
    | brief_progress data =>
        stage ← lift (get data "stage");
        progress ← lift (get data "progress");
        updateBriefProgress stage progress
    | brief_complete data => handleBriefComplete date data
    | processing_progress data =>
        stage ← lift (get data "stage");
        progress ← lift (get data "progress");
        updateProcessingProgress stage progress
    | processing_complete data => handleProcessingComplete data
    end
  else ret tt.

(** The page after the server has emitted [ev]. *)
Definition on_socket (date : string) (ev : socket_event) (u : ui) : ui :=
  exec (listener date ev) u.

(** [handleGenerate(e)] up to its [await fetch(...)]. *)
Definition handleGenerate : action unit :=
  expertName ← read (input_value "expert-name");
  strategy ← read (input_value "strategy");
  motionType ← read (input_value "motion-type");
  if negb (truthy expertName) || negb (truthy strategy) || negb (truthy motionType)
  then alert "Please fill in all fields"
  else
    _ ← set_dom "generation-result" "style.display" (VStr "none");
    _ ← set_dom "generation-progress" "style.display" (VStr "block");
    _ ← updateBriefProgress (VStr "Initializing") (VNum 0);
    fetch (mkFetch "/api/generate-brief"
             (Some (VObj [("expert_name", expertName);
                          ("strategy", strategy);
                          ("motion_type", motionType)]))).

(** [handleUpload(e)] up to its [await fetch(...)]. *)
Definition handleUpload : action unit :=
  files ← read (fun u => default (VArr []) (dom u !! ("file-input", "files")));
  n ← lift (get files "length");
  if strict_eq n (VNum 0) then ret tt
  else
    _ ← set_dom "upload-progress" "style.display" (VStr "block");
    _ ← updateUploadProgress (VNum 0) (VStr "Uploading files...");
    fetch (mkFetch "/api/upload-documents" (Some files)).

(** [handleUpload] after the [await]s, for the parsed response body
    [data]. *)
Definition handleUpload_response (data : value) : action unit :=
  success ← lift (get data "success");
  if truthy success then
    task_id ← lift (get data "task_id");
    _ ← set_currentProcessTask task_id;
    updateUploadProgress (VNum 50) (VStr "Processing documents...")
  else
    err ← lift (get data "error");
    msg ← lift (concat "Upload failed: " err);
    _ ← alert msg;
    set_dom "upload-progress" "style.display" (VStr "none").

(** [handleGenerate] after the [await]s, for the parsed response
    body [data]. *)
Definition handleGenerate_response (data : value) : action unit :=
  success ← lift (get data "success");
  if truthy success then
    task_id ← lift (get data "task_id");
    set_currentBriefTask task_id
  else
    err ← lift (get data "error");
    msg ← lift (concat "Failed to start brief generation: " err);
    _ ← alert msg;
    set_dom "generation-progress" "style.display" (VStr "none").

(** The [catch] block of [handleGenerate]. *)
Definition handleGenerate_catch (err : value) : action unit :=
  m ← lift (get err "message");
  msg ← lift (concat "Error: " m);
  _ ← alert msg;
  set_dom "generation-progress" "style.display" (VStr "none").

(** The rest of [handleGenerate] once [fetch] and [response.json()]
    have settled, with the body or with what they threw. *)
Definition handleGenerate_settle (outcome : completion value) (u : ui) : ui :=
  match outcome with
  | Throw err => exec (handleGenerate_catch err) u
  | Normal data =>
      match handleGenerate_response data u with
      | (Normal _, u') => u'
      | (Throw err, u') => exec (handleGenerate_catch err) u'
      end
  end.

End Script.

End WebApp.

(** ** The pipeline orchestrator *)
Module Pipeline.

(** Modelled from the spec: the server-side orchestrator [run(case)]
    (sections 2, 4.1, 5 and 7), which the clients above only talk to, as
    a transition system.  Stage 3 issues the two researcher calls; each
    call in flight ends by returning, failing or running into its timeout;
    the orchestrator awaits the pair jointly and goes on to stage 4 with
    both results, or aborts the Case. *)

Inductive researcher : Type := Legal | Scientific.

Record ResearchResult : Type := mkResult {
  strategy : string;
  citations : list string;
  synthesis : string
}.

Inductive call : Type :=
| NotIssued
| InFlight
| Returned (r : ResearchResult)
| Failed
| TimedOut.

Inductive agent : Type :=
| Anonymizer | Researcher (who : researcher) | Reviewer | Drafter | Editor.

Inductive error : Type :=
| ExternalServiceError (a : agent)
| ConcurrencyTimeoutError (who : researcher).

Record Brief : Type := mkBrief {
  body : string;
  brief_citations : list string
}.

(** Modelled from the spec: where a run of [run(case)] stands, stages 2
    to 6 of section 2, with the two researcher slots of stage 3. *)
Inductive state : Type :=
| Anonymizing
| Researching (legal scientific : call)
| Reviewing (legal scientific : ResearchResult)
| Drafting (legal scientific : ResearchResult)
| Editing (legal scientific : ResearchResult) (draft : string)
| Done (b : Brief)
| Aborted (e : error).

(** The number of the stage (section 2) a state is in. *)
Definition stage (s : state) : option nat :=
  match s with
  | Anonymizing => Some 2%nat
  | Researching _ _ => Some 3%nat
  | Reviewing _ _ => Some 4%nat
  | Drafting _ _ => Some 5%nat
  | Editing _ _ _ => Some 6%nat
  | Done _ | Aborted _ => None
  end.

Definition finished (c : call) : bool :=
  match c with
  | Returned _ | Failed | TimedOut => true
  | NotIssued | InFlight => false
  end.

Definition issued (c : call) : bool :=
  match c with
  | NotIssued => false
  | _ => true
  end.

(** The error a finished call that did not return stands for. *)
Definition call_error (who : researcher) (c : call) : option error :=
  match c with
  | Failed => Some (ExternalServiceError (Researcher who))
  | TimedOut => Some (ConcurrencyTimeoutError who)
  | _ => None
  end.

Inductive label : Type :=
| anonymized
| issue (who : researcher)
| ends (who : researcher) (outcome : call)
| await_pair
| clarified (who : researcher)
| reviewed
| drafted
| edited
| stage_failed (a : agent).

(** Modelled from the spec: one move of [run(case)] or of a call it has
    in flight (the orchestrator's code is not among the sources).  A
    researcher call in flight ends on its own; the await of the pair is the
    orchestrator's move: it is enabled once both calls are issued, and it
    enters stage 4 with both results or aborts the Case with the error of a
    call that failed or timed out.  Any other stage's call may fail, which
    aborts the Case with that stage's agent. *)
Inductive step : state -> label -> state -> Prop :=
| step_anonymized :
    step Anonymizing anonymized (Researching NotIssued NotIssued)
| step_issue_legal s :
    step (Researching NotIssued s) (issue Legal) (Researching InFlight s)
| step_issue_scientific l :
    step (Researching l NotIssued) (issue Scientific) (Researching l InFlight)
| step_ends_legal s outcome :
    finished outcome = true ->
    step (Researching InFlight s) (ends Legal outcome) (Researching outcome s)
| step_ends_scientific l outcome :
    finished outcome = true ->
    step (Researching l InFlight) (ends Scientific outcome) (Researching l outcome)
| step_join a b :
    step (Researching (Returned a) (Returned b)) await_pair (Reviewing a b)
| step_abort_legal l s e :
    issued s = true -> call_error Legal l = Some e ->
    step (Researching l s) await_pair (Aborted e)
| step_abort_scientific l s e :
    issued l = true -> call_error Scientific s = Some e ->
    step (Researching l s) await_pair (Aborted e)
| step_clarify_legal a a' b :
    step (Reviewing a b) (clarified Legal) (Reviewing a' b)
| step_clarify_scientific a b b' :
    step (Reviewing a b) (clarified Scientific) (Reviewing a b')
| step_reviewed a b :
    step (Reviewing a b) reviewed (Drafting a b)
| step_drafted a b d :
    step (Drafting a b) drafted (Editing a b d)
| step_edited a b d e :
    step (Editing a b d) edited
      (Done (mkBrief (d ++ e) (citations a ++ citations b)))
| step_failed s a :
    match s with
    | Anonymizing => a = Anonymizer
    | Reviewing _ _ => a = Reviewer \/ exists who, a = Researcher who
    | Drafting _ _ => a = Drafter
    | Editing _ _ _ => a = Editor
    | _ => False
    end ->
    step s (stage_failed a) (Aborted (ExternalServiceError a)).

(** [run s tr s']: the orchestrator gets from [s] to [s'] through the
    labels of [tr], oldest first. *)
Inductive run : state -> list label -> state -> Prop :=
| run_nil s : run s [] s
| run_snoc s tr s' l s'' : run s tr s' -> step s' l s'' -> run s (tr ++ [l]) s''.

(** The two research results a state holds. *)
Definition results (s : state) : option (ResearchResult * ResearchResult) :=
  match s with
  | Reviewing a b | Drafting a b | Editing a b _ => Some (a, b)
  | _ => None
  end.

(** In [tr], both researcher calls are issued before the first await. *)
Definition issued_before_await (tr : list label) : Prop :=
  forall before after,
    tr = (before ++ await_pair :: after)%list ->
    In (issue Legal) before /\ In (issue Scientific) before.

(** The states beyond the fan-out: stage 4 and later, and a finished
    Brief. *)
Definition past_fan_out (s : state) : bool :=
  match s with
  | Reviewing _ _ | Drafting _ _ | Editing _ _ _ | Done _ => true
  | _ => false
  end.

(** In [tr], an await of the pair comes after both researchers returned a
    result. *)
Definition joined_after_both (tr : list label) : Prop :=
  exists a b before after,
    tr = (before ++ await_pair :: after)%list
    /\ In (ends Legal (Returned a)) before
    /\ In (ends Scientific (Returned b)) before.

(** What the labels so far say about the state reached. *)
Definition consistent (tr : list label) (s : state) : Prop :=
  match s with
  | Anonymizing => ~ In await_pair tr
  | Researching l c =>
      ~ In await_pair tr
      /\ (issued l = true -> In (issue Legal) tr)
      /\ (issued c = true -> In (issue Scientific) tr)
      /\ (forall a, l = Returned a -> In (ends Legal (Returned a)) tr)
      /\ (forall b, c = Returned b -> In (ends Scientific (Returned b)) tr)
  | Aborted _ => issued_before_await tr
  | _ => issued_before_await tr /\ joined_after_both tr
  end.

(** A run that enters stage 4. *)
Definition both_return : list label :=
  [ anonymized; issue Legal; issue Scientific;
    ends Scientific (Returned (mkResult "challenge" ["Ross 2022"] "literature"));
    ends Legal (Returned (mkResult "challenge" ["Daubert"] "precedents"));
    await_pair ].

End Pipeline.

(** ** Observations on a run of the service *)
Module Observed.

Import Api.

(** The position of a status in the pipeline, when it names a declared
    stage, and its percentage, when it is a number. *)
Definition stage_rank (st : BriefGenerationStatus) : option nat :=
  match stage st with
  | Declared s => Some (stage_index s)
  | Proto _ => None
  end.

Definition percent (st : BriefGenerationStatus) : option Z :=
  match progress st with
  | VNum z => Some z
  | _ => None
  end.

Definition stage_before (a b : BriefGenerationStatus) : Prop :=
  exists m n, stage_rank a = Some m /\ stage_rank b = Some n /\ (m < n)%nat.

Definition percent_le (a b : BriefGenerationStatus) : Prop :=
  exists x y, percent a = Some x /\ percent b = Some y /\ x <= y.

(** [R] holds between every element and its successor. *)
Fixpoint chain {A} (R : A -> A -> Prop) (l : list A) : Prop :=
  match l with
  | a :: (b :: _) as rest => R a b /\ chain R rest
  | _ => True
  end.

(** Strictly increasing stage order, non-decreasing percentage. *)
Definition ordered (l : list BriefGenerationStatus) : Prop :=
  chain stage_before l /\ chain percent_le l.

(** The stages [simulateGenerateBrief] walks through. *)
Definition simulated_pipeline : list Stage :=
  [ uploading; strategic_analysis; legal_research; scientific_research;
    brief_writing; final_review; completed ].

(** The status an event makes the service pass to [onProgress] while the
    socket is connected. *)
Definition forwarded (occ : env * event) : list BriefGenerationStatus :=
  match snd occ with
  | progress_update data =>
      match status_of_update data with Normal st => [st] | Throw _ => [] end
  | post_fulfilled data =>
      match on_then data with Normal st => [st] | Throw _ => [] end
  | _ => []
  end.

(** The response [r] with [t] for its time. *)
Definition at_time (t : Z) (r : GenerateBriefResponse) : GenerateBriefResponse :=
  mkResponse (brief r) (wordCount r) (citations r) t.

(** A promise state without the reading of the clock. *)
Definition without_time (p : promise_state) : promise_state :=
  match p with
  | Fulfilled r => Fulfilled (mkResponse (brief r) (wordCount r) (citations r) 0)
  | _ => p
  end.

(** Two traces deliver the same events to browsers that agree on
    [navigator.onLine]; the clock readings are free. *)
Definition same_events (tr1 tr2 : list (env * event)) : Prop :=
  map snd tr1 = map snd tr2 /\
  map (fun occ => online (fst occ)) tr1 = map (fun occ => online (fst occ)) tr2.

(** Two runs that agree on everything but the clock. *)
Definition agree (s1 s2 : run) : Prop :=
  emitted s1 = emitted s2 /\ connected s1 = connected s2
  /\ without_time (promise s1) = without_time (promise s2).

End Observed.

(** ** Concrete inputs used below *)
Module Scenarios.

Import Api.

(** An axios error for a response with status [status] and parsed body
    [data]. *)
Definition axios_error (status : Z) (data : value) : value :=
  VObj [("message", VStr ("Request failed with status code " ++ pretty status));
        ("code", VStr "ERR_BAD_REQUEST");
        ("response", VObj [("status", VNum status); ("data", data)])].

(** The body of a 400 response that reports one complaint per field. *)
Definition field_errors : value :=
  VObj [("message", VObj [("expert_name", VStr "Missing required field")])].

Definition browser (t : Z) : env := mkEnv true t.

(** The body of an accepted [POST /api/generate-brief]. *)
Definition accepted : value :=
  VObj [("success", VBool true); ("task_id", VStr "task-1")].

(** A [progress_update] message. *)
Definition update (stage_name : string) (percent : Z) (agent_name : string) : value :=
  VObj [("stage", VStr stage_name); ("progress", VNum percent);
        ("agent", VStr agent_name)].

(** The socket never connects; the POST is accepted. *)
Definition silent_server : list (env * event) :=
  [ (browser 1000, connect_error (Error "websocket error"));
    (browser 1010, post_fulfilled accepted) ].

(** A successful generation. *)
Definition completion_message : value :=
  VObj [("success", VBool true);
        ("brief_excerpt", VStr "MOTION TO EXCLUDE");
        ("full_result", VObj [("expert", VStr "Dr. A"); ("length", VNum 5230)])].

Definition successful_run (t : Z) : list (env * event) :=
  [ (browser 1000, connect);
    (browser 1010, post_fulfilled accepted);
    (browser 1500, progress_update (update "Strategic analysis" 35 "Claude Opus 4"));
    (browser t, brief_complete completion_message) ].

(** The first progress message overtakes the answer to the POST. *)
Definition overtaken : list (env * event) :=
  [ (browser 1000, connect);
    (browser 1005, progress_update (update "Strategic analysis" 35 "Claude Opus 4"));
    (browser 1010, post_fulfilled accepted) ].

(** Everything arrives in order, and the server reports its first stage. *)
Definition in_order : list (env * event) :=
  [ (browser 1000, connect);
    (browser 1010, post_fulfilled accepted);
    (browser 1500, progress_update (update "Uploading documents" 20 "System")) ].

(** What two stub researchers returned, and the completion message of a
    server run against stubs that carries it. *)
Definition stub_legal : list string := [ "Daubert v. Merrell Dow, 509 U.S. 579" ].

Definition stub_scientific : list string :=
  [ "Ross et al. 2022"; "Frontiers in Human Neuroscience 16" ].

Definition stub_complete : value :=
  VObj [("success", VBool true);
        ("brief_excerpt", VStr "DRAFTEDIT");
        ("full_result",
         VObj [("expert", VStr "Dr. A"); ("strategy", VStr "challenge");
               ("legal_citations", VArr (map VStr stub_legal));
               ("scientific_citations", VArr (map VStr stub_scientific))])].

Definition stub_run : list (env * event) :=
  [ (browser 1000, connect);
    (browser 1010, post_fulfilled accepted);
    (browser 5000, brief_complete stub_complete) ].

(** A scanned page. *)
Definition scan : FileUpload.File := FileUpload.mkFile "scan.png" "image/png" 20480.

(** A photograph for which the browser knows no MIME type, and a table
    of common types that lists its extension. *)
Definition photo : FileUpload.File := FileUpload.mkFile "photo.webp" "" 51200.

Definition lists_webp (ext : string) : option string :=
  if String.eqb ext "webp" then Some "image/webp" else None.

(** The generate form of the web application filled in, with no document
    selected in the upload form. *)
Definition filled_form_no_documents : WebApp.ui :=
  WebApp.mkUi VNull VNull [] ∅
    (list_to_map
       [ (("expert-name", "value"), VStr "Dr. A");
         (("strategy", "value"), VStr "challenge");
         (("motion-type", "value"), VStr "Daubert Motion to Exclude Expert Testimony");
         (("file-input", "files"), VArr []) ])
    [] [].

(** The page while the brief task [task-1] is being generated. *)
Definition generating : WebApp.ui :=
  WebApp.mkUi (VStr "task-1") VNull [] ∅
    (list_to_map [ (("generation-progress", "style.display"), VStr "block") ])
    [] [].

(** Progress of some other task, and of the tracked one. *)
Definition foreign_progress : value :=
  VObj [("task_id", VStr "task-2"); ("stage", VStr "Legal research");
        ("progress", VNum 50)].

Definition own_progress : value :=
  VObj [("task_id", VStr "task-1"); ("stage", VStr "Legal research");
        ("progress", VNum 50)].

End Scenarios.

(** ** launcher/main.js *)
Module Launcher.

(** The settings of the [electron-store] that the launcher reads and
    writes. *)
Record settings : Type := mkSettings {
  firstRun : bool;
  apiKeys : value;
  dataPath : string;
  dockerPath : string
}.

(** What the launcher does to the desktop, in order. *)
Inductive effect : Type :=
| notification (title body : string)
| errorBox (title content : string)
| openExternal (target : string)
| quit
| splash_status (text : string)
| splash_close
| setup_window_open
| setup_window_close
| spawn (program : string)
| sleep
| tray_created.

(** How the user leaves the setup wizard: [setup-complete] with the
    configuration, or [setup-cancel]. *)
Inductive wizard_answer : Type :=
| setup_complete (keys : value) (path : string)
| setup_cancel.

(** How the deploy script ends: it closes with an exit code ([None]: the
    code is [null], the script was killed by a signal), or it never
    closes. *)
Inductive script_end : Type :=
| closed (code : option Z)
| never_closed.

(** What the launcher finds around it: the wizard's answer ([None]: neither
    message is ever sent), the outcome of the [n]-th call of [docker info]
    ([true]: no error; every call is taken to come back), whether spawning
    Docker Desktop throws, whether [process.platform] is [win32], and how the
    deploy script ends. *)
Record world : Type := mkWorld {
  answer : option wizard_answer;
  docker : nat -> bool;
  spawn_throws : bool;
  win32 : bool;
  deploy : script_end
}.

(** [showSetupWizard()]: what its promise resolves to ([None]: it never
    does), the settings and the effects. *)
Definition showSetupWizard (w : world) (st : settings)
  : option bool * settings * list effect :=
  match answer w with
  | Some (setup_complete keys path) =>
      (Some true, mkSettings false keys path (dockerPath st),
       [setup_window_open; setup_window_close])
  | Some setup_cancel => (Some false, st, [setup_window_open; setup_window_close])
  | None => (None, st, [setup_window_open])
  end.

(** [checkFirstRun()] *)
Definition checkFirstRun (w : world) (st : settings)
  : option bool * settings * list effect :=
  if firstRun st then showSetupWizard w st else (Some true, st, []).

(** The [while] loop of [startDocker]: [call] is the index of the next
    [docker info], [remaining] is 60 minus [attempts].  The result is the
    final value of [attempts]. *)
Fixpoint wait_for_docker (w : world) (remaining call : nat) : nat :=
  if docker w call then (60 - remaining)%nat
  else
    match remaining with
    | O => 60%nat
    | S remaining' => wait_for_docker w remaining' (S call)
    end.

Definition docker_error : effect :=
  errorBox "Docker Error"
    "Failed to start Docker Desktop. Please start it manually and restart LEXICON.".

(** [startDocker()] *)
Definition startDocker (w : world) (st : settings) : bool * list effect :=
  if docker w 0%nat then (true, [])
  else
    let announced := [notification "LEXICON" "Starting Docker Desktop..."] in
    if spawn_throws w then (false, announced ++ [docker_error])%list
    else
      let attempts := wait_for_docker w 60 1 in
      let waited := (announced ++ spawn (dockerPath st) :: repeat sleep attempts)%list in
      if (60 <=? attempts)%nat then (false, waited ++ [docker_error])%list
      else (true, waited).

(** [startLexicon()]: how its promise settles ([None]: it never does, the
    script has not closed), and the effects. *)
Definition startLexicon (w : world) : option (completion unit) * list effect :=
  let started :=
    [notification "LEXICON" "Starting LEXICON services...";
     spawn (if win32 w then "deploy-local.bat" else "./deploy-local.sh")] in
  match deploy w with
  | closed (Some 0) =>
      (Some (Normal tt),
       started ++ [notification "LEXICON Ready"
                     "Click here to open LEXICON in your browser"])%list
  | closed (Some code) =>
      (Some (Throw (Error ("Deployment failed with code " ++ pretty code))), started)
  | closed None => (Some (Throw (Error "Deployment failed with code null")), started)
  | never_closed => (None, started)
  end.

(** The handler of [app.whenReady()], with what its two-second timer does
    at the end.  Where an awaited promise never settles, the handler goes no
    further. *)
Definition startup (w : world) (st : settings) : settings * list effect :=
  let '(proceed, st1, e1) := checkFirstRun w st in
  match proceed with
  | None => (st1, e1)
  | Some false => (st1, e1 ++ [quit])%list
  | Some true =>
      let (running, e2) := startDocker w st1 in
      let e12 := (e1 ++ splash_status "Checking Docker Desktop..." :: e2)%list in
      if negb running then (st1, e12 ++ [splash_close; quit])%list
      else
        let (deployed, e3) := startLexicon w in
        let e123 := (e12 ++ splash_status "Starting LEXICON services..." :: e3)%list in
        match deployed with
        | None => (st1, e123)
        | Some (Throw err) =>
            let text :=
              match get err "message" with
              | Normal (VStr m) => m
              | _ => "undefined"
              end in
            (st1, e123 ++ [splash_close;
                           errorBox "LEXICON Error" ("Failed to start: " ++ text);
                           quit])%list
        | Some (Normal _) =>
            (st1,
             e123 ++ tray_created :: splash_close ::
               (if firstRun st1 then [openExternal "http://localhost"] else [])
               ++ [notification "LEXICON Ready"
                     "LEXICON is running. Access it from the system tray."])%list
        end
  end.

Definition is_open (e : effect) : bool :=
  match e with openExternal _ => true | _ => false end.

Definition is_sleep (e : effect) : bool :=
  match e with sleep => true | _ => false end.

(** The effects on the way: anything but the tray, a quit, the closing of
    the splash screen and the opening of the browser. *)
Definition on_the_way (e : effect) : bool :=
  match e with
  | tray_created | quit | splash_close | openExternal _ => false
  | _ => true
  end.

(** The wizard is not in the way: it is not shown, or it is completed. *)
Definition set_up (w : world) (st : settings) : Prop :=
  firstRun st = false \/ exists keys path, answer w = Some (setup_complete keys path).

(** The wizard is shown and cancelled; the wizard is shown and never
    answered. *)
Definition cancelled (w : world) (st : settings) : Prop :=
  firstRun st = true /\ answer w = Some setup_cancel.

Definition unanswered (w : world) (st : settings) : Prop :=
  firstRun st = true /\ answer w = None.

End Launcher.

(** ** App.tsx: the other handlers and what the component renders *)
Module AppView.

Import Api App.

(** [handleRemoveFile(id)] *)
Definition handleRemoveFile (removed : string) (s : state) : state :=
  mkState (List.filter (fun f => negb (String.eqb (id f) removed)) (uploadedFiles s))
    (selectedBriefType s) (selectedExpert s) (jurisdiction s)
    (generationStatus s) (generatedBrief s) (strategicRecommendations s)
    (briefMetadata s).

(** [handleReset()] *)
Definition handleReset (s : state) : state :=
  mkState [] None (selectedExpert s) (jurisdiction s) None None None None.

(** A property of the [metadata] object of a response: the service sets
    [wordCount], [citations] and [processingTime] and nothing else. *)
Definition metadata_field (m : GenerateBriefResponse) (k : string) : value :=
  if String.eqb k "wordCount" then wordCount m
  else if String.eqb k "citations" then VNum (citations m)
  else if String.eqb k "processingTime" then VNum (processingTime m)
  else VUndefined.

(** What the component puts on the page: the form with its sections and
    button, or the progress tracker, the brief (whose panel carries the reset
    control), the recommendations and the four metrics. *)
Record view : Type := mkView {
  form : bool;
  type_section : bool;
  expert_section : bool;
  generate_button : bool;
  tracker : option BriefGenerationStatus;
  brief_panel : option value;
  recommendations : option value;
  metrics : option (list value)
}.

(** The four numbers of the metrics panel. *)
Definition render_metrics (m : GenerateBriefResponse) : completion (list value) :=
  _ ← WebApp.toLocaleString (metadata_field m "wordCount");
  agents ← get (metadata_field m "agentsUsed") "length";
  Normal [metadata_field m "wordCount"; metadata_field m "citations"; agents;
          metadata_field m "anonymizedDocuments"].

Definition is_completed (st : BriefGenerationStatus) : bool :=
  match stage st with
  | Declared completed => true
  | _ => false
  end.

(** The [return] of [App]. *)
Definition render (s : state) : completion view :=
  match generationStatus s with
  | None =>
      let some_files := negb (List.length (uploadedFiles s) =? 0)%nat in
      let typed := some_files
                   && match selectedBriefType s with Some _ => true | None => false end in
      Normal (mkView true some_files typed
                (typed && negb (String.eqb (selectedExpert s) ""))
                None None None None)
  | Some st =>
      let shown_tracker := if is_completed st then None else Some st in
      match generatedBrief s with
      | Some content =>
          if truthy content then
            let recs :=
              match strategicRecommendations s with
              | Some r => if truthy r then Some r else None
              | None => None
              end in
            numbers ←
              match briefMetadata s with
              | Some m => n ← render_metrics m; Normal (Some n)
              | None => Normal None
              end;
            Normal (mkView false false false false shown_tracker (Some content)
                      recs numbers)
          else Normal (mkView false false false false shown_tracker None None None)
      | None => Normal (mkView false false false false shown_tracker None None None)
      end
  end.

(** What the component holds once a run has come to an outcome. *)
Definition outcome_held (before : state) (sr : state * run) : Prop :=
  generationStatus (fst sr) <> None
  /\ match promise (snd sr) with
     | Fulfilled result =>
         generatedBrief (fst sr) = Some (brief result)
         /\ briefMetadata (fst sr) = Some result
     | _ =>
         generatedBrief (fst sr) = generatedBrief before
         /\ briefMetadata (fst sr) = briefMetadata before
     end.

End AppView.

(** ** components/ProgressTracker.tsx *)
Module ProgressTracker.

Import Api.

Definition Stage_name (s : Stage) : string :=
  match s with
  | uploading => "uploading"
  | anonymization => "anonymization"
  | strategic_analysis => "strategic_analysis"
  | legal_research => "legal_research"
  | scientific_research => "scientific_research"
  | brief_writing => "brief_writing"
  | final_review => "final_review"
  | completed => "completed"
  | error => "error"
  end.

(** The rows of the tracker: stage name and agent. *)
Definition stages : list (string * string) :=
  [ ("Document Upload", "System");
    ("Anonymization & Analysis", "Claude Opus 4");
    ("Legal Research", "o3-pro-deep-research");
    ("Scientific Research", "o4-mini-deep-research");
    ("Brief Writing", "gpt-4.5-research-preview");
    ("Final Review & Polish", "Gemini 2.5 Pro") ].

(** [l.findIndex(p)], counting from [i]. *)
Fixpoint findIndex {A} (p : A -> bool) (l : list A) (i : Z) : Z :=
  match l with
  | [] => -1
  | x :: rest => if p x then i else findIndex p rest (i + 1)
  end.

(** [currentStageIndex]; a [stage] that is no string has no
    [toLowerCase]. *)
Definition currentStageIndex (st : stage_value) : completion Z :=
  match st with
  | Declared s =>
      Normal (findIndex
                (fun row => is_substring (FileUpload.toLowerCase (Stage_name s))
                              (FileUpload.toLowerCase (fst row)))
                stages 0)
  | Proto _ => Throw (TypeError "status.stage.toLowerCase is not a function")
  end.

(** Row [index] is the active one, or a completed one. *)
Definition isActive (current index : Z) : bool := index =? current.
Definition isCompleted (current index : Z) : bool := index <? current.

(** [showCommunication] *)
Definition showCommunication (st : stage_value) : bool :=
  match st with
  | Declared legal_research | Declared scientific_research => true
  | _ => false
  end.

(** The tracker marks no row for this status. *)
Definition marks_no_row (st : BriefGenerationStatus) : Prop :=
  forall current,
    currentStageIndex (stage st) = Normal current ->
    forall index, 0 <= index ->
      isActive current index = false /\ isCompleted current index = false.

End ProgressTracker.

(** ** More concrete inputs *)
Module Cases.

Import Api.

(** One uploaded report, a brief type and an expert: ready to generate. *)
Definition ready : App.state :=
  App.mkState [mkUploaded "k3j9x0a1b" "smith_report.pdf" 20480 "application/pdf" 100]
    (Some daubert_motion) "Dr. Smith" "Federal" None None None None.

(** The generation is refused by the server when the brief is due. *)
Definition failed_run : list (env * event) :=
  [ (Scenarios.browser 1000, connect);
    (Scenarios.browser 1010, post_fulfilled Scenarios.accepted);
    (Scenarios.browser 9000,
     brief_complete (VObj [("success", VBool false);
                           ("error", VStr "Anthropic API overloaded")])) ].

End Cases.

(** ** services/api.ts: vocabulary for its properties *)
Module ApiMore.

Import Api.

(** The two messages the service listens to on the socket. *)
Definition is_socket_message (occ : env * event) : bool :=
  match snd occ with
  | progress_update _ | brief_complete _ => true
  | _ => false
  end.

Definition server_error (text : string) : ErrorHandler.ApiError :=
  ErrorHandler.mkApiError text (Some "SERVER_ERROR")
    (Some "An internal server error occurred.")
    (Some "Please try again later. If the issue persists, contact support.")
    (VNum 500).

(** How [parseApiError] files an error that has a message and no response,
    when its code is none of the two it knows. *)
Definition filed_by_text (online : bool) (text : string) : ErrorHandler.ApiError :=
  if is_substring "timeout" text then
    ErrorHandler.mkApiError "Request timed out" (Some "GENERATION_TIMEOUT")
      (Some "Brief generation timed out due to high complexity.")
      (Some "Try reducing the number of documents or simplifying the request.")
      VUndefined
  else if negb online then
    ErrorHandler.mkApiError "Network connection lost" (Some "NETWORK_ERROR")
      (Some "Network connection error.")
      (Some "Please check your internet connection and try again.")
      VUndefined
  else
    ErrorHandler.mkApiError
      (if String.eqb text "" then "Unknown error occurred" else text)
      (Some "UNKNOWN_ERROR")
      (Some "An unexpected error occurred.")
      (Some "Please try again. If the issue persists, contact support.")
      VUndefined.

(** The error object a [brief_complete] message that reports no success is
    translated from. *)
Definition failure_report (reported : value) : value :=
  VObj [("response",
         VObj [("data", VObj [("message", reported)]); ("status", VNum 500)])].

(** The answer [data] of the server to the POST is a failure, and [thrown]
    is what the [then] handler throws on it: there is no body to read
    [success] from, or [success] is not truthy and the handler throws an
    [Error] with the reported text ([Failed to start generation] when none
    is reported), unless that text cannot be printed. *)
Definition post_failure (data thrown : value) : Prop :=
  get data "success" = Throw thrown
  \/ exists ok reported,
       get data "success" = Normal ok /\ truthy ok = false
       /\ get data "error" = Normal reported
       /\ match to_string (or_else reported (VStr "Failed to start generation")) with
          | Normal text => thrown = Error text
          | Throw x => thrown = x
          end.

(** The occurrence [occ] settles a pending run by rejecting it with [err]:
    it is a [brief_complete] message that reports no success, a POST that
    fails, or a POST answered with a failure; in each case [err] is what
    [parseApiError] returns for the failure. *)
Definition rejects_with (occ : env * event) (err : ErrorHandler.ApiError) : Prop :=
  match snd occ with
  | brief_complete data =>
      exists ok reported,
        get data "success" = Normal ok /\ truthy ok = false
        /\ get data "error" = Normal reported
        /\ ErrorHandler.parseApiError (online (fst occ)) (failure_report reported)
           = Normal err
  | post_rejected thrown =>
      ErrorHandler.parseApiError (online (fst occ)) thrown = Normal err
  | post_fulfilled data =>
      exists thrown,
        post_failure data thrown
        /\ ErrorHandler.parseApiError (online (fst occ)) thrown = Normal err
  | _ => False
  end.

(** An occurrence that is neither a [brief_complete] message nor a failure
    of the POST: the socket connects or fails to, a progress update arrives,
    or the POST is answered with success. *)
Definition cannot_settle (occ : env * event) : bool :=
  match snd occ with
  | connect | connect_error _ | progress_update _ => true
  | post_fulfilled data =>
      match get data "success" with Normal ok => truthy ok | Throw _ => false end
  | brief_complete _ | post_rejected _ => false
  end.

(** The brief types that answer a challenge. *)
Definition is_response (b : BriefType) : bool :=
  match b with
  | daubert_response | frye_response => true
  | _ => false
  end.

End ApiMore.

(** ** services/errorHandler.ts: vocabulary for its properties *)
Module ErrorHandlerMore.

Import ErrorHandler.

(** An entry of [ErrorMessages] is sound: it is filed under its own code,
    the code is one of [ErrorCodes], and both texts are there. *)
Definition sound_entry (kd : string * ErrorDetails) : bool :=
  String.eqb (fst kd) (d_code (snd kd))
  && existsb (String.eqb (d_code (snd kd))) ErrorCodes
  && negb (String.eqb (d_userMessage (snd kd)) "")
  && negb (String.eqb (d_recoveryAction (snd kd)) "").

(** The property key under which [parseApiError] looks up the code sent
    by the backend, when the error carries a response whose body has a
    truthy [error_code]. *)
Definition backend_key (error : value) : completion (option string) :=
  response ← get error "response";
  if truthy response then
    data ← get response "data";
    error_code ← opt_get data "error_code";
    if truthy error_code then key ← to_string error_code; Normal (Some key)
    else Normal None
  else Normal None.

(** The statuses answered with a fixed code and message. *)
Definition fixed_status (status : Z) : option (string * string) :=
  if status =? 401 then Some ("INVALID_API_KEY", "Authentication failed")
  else if status =? 403 then Some ("EXPIRED_API_KEY", "Access forbidden")
  else if status =? 413 then Some ("DOCUMENT_TOO_LARGE", "Payload too large")
  else if status =? 429 then Some ("RATE_LIMIT_EXCEEDED", "Rate limit exceeded")
  else if status =? 504 then Some ("GENERATION_TIMEOUT", "Request timeout")
  else None.

(** The [ApiError] with the texts of [d]. *)
Definition error_of (d : ErrorDetails) (text : string) (status : value) : ApiError :=
  mkApiError text (Some (d_code d)) (Some (d_userMessage d))
    (Some (d_recoveryAction d)) status.

(** An error whose response body carries a backend code and a message. *)
Definition backend_error (text : string) (status : value) (key message : string)
  : value :=
  VObj [("message", VStr text);
        ("response",
         VObj [("status", status);
               ("data", VObj [("error_code", VStr key); ("message", VStr message)])])].

(** An error without a response: a message and an axios code. *)
Definition network_error (code_name text : string) : value :=
  VObj [("message", VStr text); ("code", VStr code_name)].

(** The code [parseApiError] files such an error under. *)
Definition network_class (online : bool) (code_name text : string) : string :=
  if String.eqb code_name "ECONNABORTED" || is_substring "timeout" text
  then "GENERATION_TIMEOUT"
  else if String.eqb code_name "ERR_NETWORK" || negb online
  then "NETWORK_ERROR"
  else "UNKNOWN_ERROR".

End ErrorHandlerMore.

(** ** The web application: vocabulary for its properties *)
Module WebAppMore.

Import WebApp.

(** An action that leaves the history and the storage alone. *)
Definition frames {A} (a : action A) : Prop :=
  forall u,
    briefHistory (snd (a u)) = briefHistory u
    /\ localStorage (snd (a u)) = localStorage u.

Section Stored.

Variable stringify : list (list (string * value)) -> string.

(** The history is bounded and stored: at most 50 entries, and under
    [lexicon_history] their serialisation, or nothing yet while there is
    none. *)
Definition kept (u : ui) : Prop :=
  (List.length (briefHistory u) <= 50)%nat
  /\ (localStorage u !! "lexicon_history" = Some (stringify (briefHistory u))
      \/ (localStorage u !! "lexicon_history" = None /\ briefHistory u = [])).

Definition keeps {A} (a : action A) : Prop :=
  forall u, kept u -> kept (snd (a u)).

End Stored.

(** The answer of the server to an accepted request, and a progress
    message for a task. *)
Definition started (task_id : value) : value :=
  VObj [("success", VBool true); ("task_id", task_id)].

Definition progress_of (task_id stage progress : value) : value :=
  VObj [("task_id", task_id); ("stage", stage); ("progress", progress)].

(** The two requests that reload the expert list and the system status. *)
Definition reloads : list request :=
  [mkFetch "/api/experts" None; mkFetch "/api/status" None].

(** The message reports success: [data.success] is truthy. *)
Definition reports_success (data : value) : Prop :=
  exists ok, get data "success" = Normal ok /\ truthy ok = true.

(** A page whose upload of one report is being processed as task
    [proc-3], the message that ends the processing, and an upload form
    that holds the file input. *)
Definition processing : ui :=
  mkUi VNull (VStr "proc-3") [] ∅
    (<[("file-input", "files") := VArr [VStr "report.pdf"]]> ∅) []
    [mkFetch "/api/upload-documents" (Some (VArr [VStr "report.pdf"]))].

Definition processed : value :=
  VObj [("task_id", VStr "proc-3"); ("success", VBool true);
        ("summary", VObj [("successfully_processed", VNum 1);
                          ("failed", VNum 0);
                          ("total_vectors_created", VNum 42)])].

Definition empties_file_input (form : string)
    (page : gmap (string * string) value) : gmap (string * string) value :=
  if String.eqb form "upload-form"
  then <[("file-input", "files") := VArr []]> page
  else page.

End WebAppMore.

(** * Properties *)

(** ** The error translation boundary *)
Section ErrorHandlerFacts.

Import ErrorHandler Scenarios.

(** C8 (failing inputs).  For the axios error of a 400 response whose JSON
    body is [null], [parseApiError] throws a TypeError at
    [data.message || 'Bad request']; for a 400 response whose [message] is
    an object (a map from field to complaint), it throws at
    [data?.message?.includes('API key')].  In both cases it returns no
    [ApiError] at all. *)
Theorem parseApiError_throws_on_400 :
  forall online,
    parseApiError online (axios_error 400 VNull)
    = Throw (TypeError "Cannot read properties of null (reading 'message')")
    /\ parseApiError online (axios_error 400 field_errors)
       = Throw (TypeError "includes is not a function").
Proof. intros online. split; reflexivity. Qed.

Lemma well_formedb_spec e : well_formedb e = true <-> well_formed e.
Proof.
  unfold well_formedb, well_formed.
  destruct (code e) as [c|], (userMessage e) as [m|].
  - rewrite andb_true_iff, negb_true_iff, String.eqb_neq, existsb_exists. split.
    + intros [(c' & Hin & Hc) Hm]. apply String.eqb_eq in Hc as <-. split; eauto.
    + intros [(c' & [= <-] & Hin) (m' & [= <-] & Hm)]. split; [|exact Hm].
      exists c. split; [exact Hin | apply String.eqb_refl].
  - split; [discriminate|]. intros [_ (m' & Hm & _)]. discriminate.
  - split; [discriminate|]. intros [(c' & Hc & _) _]. discriminate.
  - split; [discriminate|]. intros [(c' & Hc & _) _]. discriminate.
Qed.

(** The sibling branch for status 500 reads the same body through
    [data?.message] and returns a well-formed error. *)
Lemma parseApiError_500_null_body :
  forall online,
    exists e, parseApiError online (axios_error 500 VNull) = Normal e
              /\ code e = Some "SERVER_ERROR" /\ well_formedb e = true.
Proof. intros online. eexists. split; [reflexivity | split; reflexivity]. Qed.

(** A backend code that names a member of [Object.prototype] selects that
    member as the details object: the result has neither code nor user
    message. *)
Lemma parseApiError_inherited_code :
  forall online,
    exists e,
      parseApiError online
        (axios_error 418 (VObj [("error_code", VStr "constructor")])) = Normal e
      /\ code e = None /\ userMessage e = None.
Proof. intros online. eexists. split; [reflexivity | split; reflexivity]. Qed.

Lemma details_of_literal c d :
  assoc ErrorMessages c = Some d ->
  forall m status e,
    new_ApiError (details_of c) m status = Normal e ->
    code e = Some (d_code d) /\ userMessage e = Some (d_userMessage d).
Proof.
  intros Hc m status e. unfold details_of, lookup_ErrorMessages, new_ApiError.
  rewrite Hc. destruct (Error_message m) as [msg|err]; simpl; [|discriminate].
  intros [= <-]. split; reflexivity.
Qed.

(** The error the [brief_complete] listener builds for a failed
    generation always translates to [SERVER_ERROR], unless the reported
    error cannot be converted to a message. *)
Lemma parseApiError_of_failure online err e :
  parseApiError online
    (VObj [("response", VObj [("data", VObj [("message", err)]);
                              ("status", VNum 500)])]) = Normal e ->
  code e = Some "SERVER_ERROR" /\ well_formedb e = true.
Proof.
  cbn. unfold new_ApiError.
  destruct (Error_message (or_else err (VStr "Server error"))) as [msg|x];
    cbn; [|discriminate].
  intros [= <-]. split; reflexivity.
Qed.

End ErrorHandlerFacts.

(** ** The promise of [generateBrief] *)
Section ApiFacts.

Import Api Scenarios ApiMore.

Lemma generateBrief_snoc tr occ :
  generateBrief (tr ++ [occ]) = step (generateBrief tr) occ.
Proof. unfold generateBrief. rewrite fold_left_app. reflexivity. Qed.

Lemma generateBrief_app tr tr' :
  generateBrief (tr ++ tr') = fold_left step tr' (generateBrief tr).
Proof. unfold generateBrief. apply fold_left_app. Qed.

Lemma settle_settled p q : settled p = true -> settle p q = p.
Proof. destruct p; simpl; [discriminate | reflexivity | reflexivity]. Qed.

Lemma on_catch_promise e s err :
  promise (on_catch e s err) = promise s
  \/ exists parsed, ErrorHandler.parseApiError (online e) err = Normal parsed
                    /\ promise (on_catch e s err) = settle (promise s) (Rejected parsed).
Proof.
  unfold on_catch. destruct (ErrorHandler.parseApiError (online e) err) as [parsed|x].
  - right. exists parsed. split; reflexivity.
  - left. reflexivity.
Qed.

(** A settled promise is not settled again. *)
Lemma step_keeps_settled s occ :
  settled (promise s) = true -> promise (step s occ) = promise s.
Proof.
  intros Hs. destruct occ as [e ev]. destruct ev as [|x|data|data|data|err]; simpl.
  - reflexivity.
  - reflexivity.
  - destruct (connected s); [|reflexivity].
    destruct (status_of_update data); reflexivity.
  - destruct (connected s); [|reflexivity]. unfold on_brief_complete.
    destruct (get data "success") as [ok|x]; [|reflexivity].
    destruct (truthy ok).
    + destruct (response_of_complete (now e) data); simpl;
        [apply settle_settled; exact Hs | reflexivity].
    + match goal with |- context [match ?c with Normal _ => _ | Throw _ => _ end] =>
        destruct c end; simpl; [apply settle_settled; exact Hs | reflexivity].
  - destruct (on_then data) as [st|x]; [reflexivity|].
    destruct (on_catch_promise e s x) as [H|(parsed & _ & H)]; rewrite H;
      [reflexivity | apply settle_settled; exact Hs].
  - destruct (on_catch_promise e s err) as [H|(parsed & _ & H)]; rewrite H;
      [reflexivity | apply settle_settled; exact Hs].
Qed.

Lemma fold_keeps_settled tr s :
  settled (promise s) = true -> promise (fold_left step tr s) = promise s.
Proof.
  revert s. induction tr as [|occ tr IH]; intros s Hs; simpl; [reflexivity|].
  rewrite IH; rewrite step_keeps_settled; auto.
Qed.

(** How one event can fulfil the promise. *)
Lemma step_fulfilled s e ev r :
  promise (step s (e, ev)) = Fulfilled r ->
  promise s = Fulfilled r
  \/ exists data ok,
       ev = brief_complete data /\ promise s = Pending
       /\ get data "success" = Normal ok /\ truthy ok = true
       /\ response_of_complete (now e) data = Normal r.
Proof.
  destruct ev as [|x|data|data|data|err]; simpl.
  - auto.
  - auto.
  - destruct (connected s); [|auto]. destruct (status_of_update data); auto.
  - destruct (connected s); [|auto]. unfold on_brief_complete.
    destruct (get data "success") as [ok|x] eqn:Hok; [|auto].
    destruct (truthy ok) eqn:Ht.
    + destruct (response_of_complete (now e) data) as [r'|x] eqn:Hr; simpl; [|auto].
      destruct (promise s) eqn:Hp; simpl; intros H; try (left; exact H); try discriminate.
      injection H as <-. right. exists data, ok. auto.
    + match goal with |- context [match ?c with Normal _ => _ | Throw _ => _ end] =>
        destruct c end; simpl; [|auto].
      destruct (promise s); simpl; intros H; try discriminate; auto.
  - destruct (on_then data) as [st|x]; [auto|].
    destruct (on_catch_promise e s x) as [H|(parsed & _ & H)]; rewrite H; [auto|].
    destruct (promise s); simpl; intros H'; try discriminate; auto.
  - destruct (on_catch_promise e s err) as [H|(parsed & _ & H)]; rewrite H; [auto|].
    destruct (promise s); simpl; intros H'; try discriminate; auto.
Qed.

Lemma fulfilled_by_brief_complete tr r :
  promise (generateBrief tr) = Fulfilled r ->
  exists e data ok,
    In (e, brief_complete data) tr
    /\ get data "success" = Normal ok /\ truthy ok = true
    /\ response_of_complete (now e) data = Normal r.
Proof.
  induction tr as [|[e ev] tr IH] using rev_ind; [discriminate|].
  rewrite generateBrief_snoc. intros H.
  apply step_fulfilled in H as [H|(data & ok & -> & _ & Hok & Ht & Hr)].
  - destruct (IH H) as (e' & data & ok & Hin & Hrest).
    exists e', data, ok. split; [apply in_or_app; left; exact Hin | exact Hrest].
  - exists e, data, ok. split; [apply in_or_app; right; left; reflexivity | auto].
Qed.

Lemma settled_stable tr tr' :
  settled (promise (generateBrief tr)) = true ->
  promise (generateBrief (tr ++ tr')) = promise (generateBrief tr).
Proof. intros H. rewrite generateBrief_app. apply fold_keeps_settled, H. Qed.

(** *** The component around the promise *)

Lemma setGenerationStatus_fold l s :
  App.generatedBrief
    (fold_left (fun acc st => App.setGenerationStatus st acc) l s)
  = App.generatedBrief s.
Proof.
  revert s. induction l as [|st l IH]; intros s; simpl; [reflexivity|].
  rewrite IH. reflexivity.
Qed.

Lemma on_event_displays before sr occ :
  App.displays before sr -> App.displays before (App.on_event sr occ).
Proof.
  destruct sr as [s r]. unfold App.displays, App.on_event. simpl. intros H.
  set (r' := step r occ).
  set (s1 := fold_left _ _ s).
  assert (Hs1 : App.generatedBrief s1 = App.generatedBrief s)
    by apply setGenerationStatus_fold.
  destruct (settled (promise r)) eqn:Hset.
  - rewrite andb_false_r. simpl. subst r'.
    rewrite (step_keeps_settled r occ Hset). rewrite Hs1. exact H.
  - assert (Hp : promise r = Pending) by (destruct (promise r); [reflexivity | discriminate..]).
    rewrite Hp in H. rewrite andb_true_r.
    destruct (promise r') as [|result|err]; simpl; congruence.
Qed.

Lemma on_event_snd sr occ : snd (App.on_event sr occ) = step (snd sr) occ.
Proof. destruct sr as [s r]. reflexivity. Qed.

Lemma fold_on_event before tr sr :
  App.displays before sr ->
  App.displays before (fold_left App.on_event tr sr)
  /\ snd (fold_left App.on_event tr sr) = fold_left step tr (snd sr).
Proof.
  revert sr. induction tr as [|occ tr IH]; intros sr H; simpl; [auto|].
  destruct (IH (App.on_event sr occ) (on_event_displays _ _ _ H)) as [H1 H2].
  split; [exact H1|]. rewrite H2, on_event_snd. reflexivity.
Qed.

Lemma session_displays s tr : App.session_ok s tr.
Proof.
  unfold App.session_ok, App.session.
  destruct (App.handleGenerateBrief s) as [s0 [req|]] eqn:Hg.
  - assert (Hb : App.generatedBrief s0 = App.generatedBrief s).
    { unfold App.handleGenerateBrief in Hg.
      destruct (App.selectedBriefType s); [|discriminate].
      destruct (_ || _); [discriminate|]. injection Hg as <- _. reflexivity. }
    destruct (fold_on_event (App.generatedBrief s) tr (s0, start)) as [H1 H2];
      [exact Hb|].
    destruct (fold_left App.on_event tr (s0, start)) as [s' r]. simpl in *.
    split; [exact H2 | exact H1].
  - unfold App.handleGenerateBrief in Hg.
    destruct (App.selectedBriefType s); [|congruence].
    destruct (_ || _); [congruence|discriminate].
Qed.

(** What the [then] handler of the POST throws, it throws on a failure. *)
Lemma on_then_throws data thrown :
  on_then data = Throw thrown -> post_failure data thrown.
Proof.
  unfold on_then, post_failure, mbind, completion_bind, bind_flip, bind.
  destruct (get data "success") as [ok|x] eqn:Hok; [|intros [= <-]; auto].
  destruct (truthy ok) eqn:Ht; [discriminate|].
  destruct (get data "error") as [reported|x] eqn:Hrep.
  - intros H. right. exists ok, reported. repeat split; auto.
    destruct (to_string (or_else reported (VStr "Failed to start generation")));
      congruence.
  - destruct data; simpl in Hok, Hrep; discriminate.
Qed.

Lemma on_then_accepts data ok :
  get data "success" = Normal ok -> truthy ok = true ->
  exists st, on_then data = Normal st.
Proof.
  intros Hok Ht. unfold on_then, mbind, completion_bind, bind_flip, bind.
  rewrite Hok, Ht. eauto.
Qed.

(** How one occurrence can reject the promise: it is one of the three
    failures, and the error is the translation of that failure. *)
Lemma step_rejects s occ err :
  promise (step s occ) = Rejected err ->
  promise s = Rejected err \/ (promise s = Pending /\ rejects_with occ err).
Proof.
  destruct occ as [e ev]. unfold rejects_with.
  destruct ev as [|x|data|data|data|x]; simpl.
  - auto.
  - auto.
  - destruct (connected s); [|auto]. destruct (status_of_update data); auto.
  - destruct (connected s); [|auto]. unfold on_brief_complete.
    destruct (get data "success") as [ok|x] eqn:Hok; [|auto].
    destruct (truthy ok) eqn:Ht.
    + destruct (response_of_complete (now e) data) as [r'|x]; simpl; [|auto].
      destruct (promise s); simpl; intros H; try discriminate; auto.
    + destruct (get data "error") as [reported|x] eqn:Hrep; simpl; [|auto].
      match goal with |- context [ErrorHandler.parseApiError ?o ?v] =>
        destruct (ErrorHandler.parseApiError o v) as [parsed|x] eqn:Hp end;
        simpl; [|auto].
      destruct (promise s); simpl; intros H; try discriminate; auto.
      injection H as <-. right. split; [reflexivity|].
      exists ok, reported. auto.
  - destruct (on_then data) as [st|x] eqn:Hthen; [auto|].
    destruct (on_catch_promise e s x) as [H|(parsed & Hp & H)]; rewrite H; [auto|].
    destruct (promise s); simpl; intros H'; try discriminate; auto.
    injection H' as <-. right. split; [reflexivity|]. exists x.
    split; [apply on_then_throws; exact Hthen | exact Hp].
  - destruct (on_catch_promise e s x) as [H|(parsed & Hp & H)]; rewrite H; [auto|].
    destruct (promise s); simpl; intros H'; try discriminate; auto.
    injection H' as <-. right. split; [reflexivity | exact Hp].
Qed.

Lemma rejected_by_occurrence tr err :
  promise (generateBrief tr) = Rejected err ->
  exists occ, In occ tr /\ rejects_with occ err.
Proof.
  induction tr as [|occ tr IH] using rev_ind; [discriminate|].
  rewrite generateBrief_snoc. intros H.
  apply step_rejects in H as [H|(_ & Hr)].
  - destruct (IH H) as (occ' & Hin & Hr).
    exists occ'. split; [apply in_or_app; left; exact Hin | exact Hr].
  - exists occ. split; [apply in_or_app; right; left; reflexivity | exact Hr].
Qed.

(** An occurrence that is neither a [brief_complete] message nor a failure
    of the POST leaves the promise as it is. *)
Lemma step_cannot_settle s occ :
  cannot_settle occ = true -> promise (step s occ) = promise s.
Proof.
  destruct occ as [e ev]. unfold cannot_settle.
  destruct ev as [|x|data|data|data|x]; simpl; try discriminate; try reflexivity.
  - intros _. destruct (connected s); [|reflexivity].
    destruct (status_of_update data); reflexivity.
  - destruct (get data "success") as [ok|x] eqn:Hok; [|discriminate].
    intros Ht. destruct (on_then_accepts data ok Hok Ht) as [st ->]. reflexivity.
Qed.

Lemma pending_without_settling tr :
  forallb cannot_settle tr = true -> promise (generateBrief tr) = Pending.
Proof.
  induction tr as [|occ tr IH] using rev_ind; [reflexivity|].
  rewrite forallb_app, andb_true_iff. simpl. rewrite andb_true_r.
  intros [Htr Hocc]. rewrite generateBrief_snoc.
  rewrite step_cannot_settle by exact Hocc. apply IH, Htr.
Qed.

(** C1 (as amended).  As long as nothing but connection events, progress
    updates and an accepted POST has arrived, the promise of [generateBrief]
    is pending.  It is settled at most once and then keeps its state
    whatever arrives later: it is fulfilled only by a [brief_complete]
    message reporting success, with the response built from that message,
    and rejected only by a [brief_complete] message reporting no success or
    by a failure of the POST, with the [ApiError] that [parseApiError]
    returns for that failure.  The component stores the brief of the
    response in its state exactly when the promise is fulfilled; on
    rejection, or while the promise is pending, the stored brief is what it
    was. *)
Theorem generateBrief_settles_at_most_once :
  forall (tr : list (env * event)),
    (forallb cannot_settle tr = true -> promise (generateBrief tr) = Pending)
    /\ (forall r,
          promise (generateBrief tr) = Fulfilled r ->
          (exists e data ok,
             In (e, brief_complete data) tr
             /\ get data "success" = Normal ok /\ truthy ok = true
             /\ response_of_complete (now e) data = Normal r)
          /\ forall later, promise (generateBrief (tr ++ later)) = Fulfilled r)
    /\ (forall err,
          promise (generateBrief tr) = Rejected err ->
          (exists occ, In occ tr /\ rejects_with occ err)
          /\ forall later, promise (generateBrief (tr ++ later)) = Rejected err)
    /\ forall s, App.session_ok s tr.
Proof.
  intros tr. split; [apply pending_without_settling|].
  split; [|split; [|intros s; apply session_displays]].
  - intros r Hp. split; [apply fulfilled_by_brief_complete; exact Hp|].
    intros later. rewrite settled_stable; rewrite Hp; reflexivity.
  - intros err Hp. split; [apply rejected_by_occurrence; exact Hp|].
    intros later. rewrite settled_stable; rewrite Hp; reflexivity.
Qed.

Lemma generateBrief_settles_at_most_once_witness :
  promise (generateBrief silent_server) = Pending
  /\ promise (generateBrief (successful_run 2000 ++ silent_server))
     = Fulfilled (mkResponse (VStr "MOTION TO EXCLUDE") (VNum 5230) 10 2000)
  /\ exists occ,
       In occ Cases.failed_run
       /\ rejects_with occ (server_error "Anthropic API overloaded").
Proof.
  split; [apply (proj1 (generateBrief_settles_at_most_once silent_server));
          reflexivity|].
  split.
  - destruct (generateBrief_settles_at_most_once (successful_run 2000))
      as (_ & H & _).
    apply (H (mkResponse (VStr "MOTION TO EXCLUDE") (VNum 5230) 10 2000) eq_refl).
  - destruct (generateBrief_settles_at_most_once Cases.failed_run)
      as (_ & _ & H & _).
    apply (H (server_error "Anthropic API overloaded") eq_refl).
Defined.

(** C1 (counterexample).  The socket fails to connect, which is only
    logged, and the POST is accepted: the run is neither fulfilled nor
    rejected, and nothing in the client bounds the wait. *)
Lemma generateBrief_can_stay_pending :
  ~ (exists r, promise (generateBrief silent_server) = Fulfilled r)
  /\ ~ (exists err, promise (generateBrief silent_server) = Rejected err).
Proof. split; intros [x H]; vm_compute in H; discriminate. Qed.

(** *** Citation count *)

Lemma response_of_complete_citations t data r :
  response_of_complete t data = Normal r -> citations r = 10.
Proof.
  unfold response_of_complete.
  destruct (get data "brief_excerpt"); simpl; [|discriminate].
  destruct (get data "full_result") as [full|]; simpl; [|discriminate].
  destruct (opt_get full "length"); simpl; [|discriminate].
  intros [= <-]. reflexivity.
Qed.

(** C3 (as amended).  The citation count of the response is a constant of
    the service: 10 for every response [generateBrief] resolves with,
    whatever the completion message carries, and 15 for
    [simulateGenerateBrief]. *)
Theorem citation_count_is_constant :
  (forall tr r, promise (generateBrief tr) = Fulfilled r -> citations r = 10)
  /\ (forall req, citations (snd (simulateGenerateBrief req)) = 15).
Proof.
  split.
  - intros tr r H.
    destruct (fulfilled_by_brief_complete tr r H) as (e & data & ok & _ & _ & _ & Hr).
    eapply response_of_complete_citations, Hr.
  - intros req. reflexivity.
Qed.

Lemma citation_count_is_constant_witness :
  promise (generateBrief stub_run)
  = Fulfilled (mkResponse (VStr "DRAFTEDIT") (VNum 1000) 10 5000)
  /\ citations (mkResponse (VStr "DRAFTEDIT") (VNum 1000) 10 5000) = 10.
Proof.
  split; [reflexivity|].
  apply (proj1 citation_count_is_constant stub_run). reflexivity.
Defined.

(** C3 (counterexample).  The stub researchers returned one and two
    citations; the brief the run resolves with counts 10. *)
Lemma citation_count_is_not_the_sum :
  exists r,
    promise (generateBrief stub_run) = Fulfilled r
    /\ citations r
       <> Z.of_nat (List.length stub_legal) + Z.of_nat (List.length stub_scientific).
Proof. eexists. split; [reflexivity|]. vm_compute. discriminate. Qed.

(** *** Order of the progress events *)

Import Observed.

Lemma on_catch_disconnects e s err : connected (on_catch e s err) = false.
Proof. unfold on_catch. destruct (ErrorHandler.parseApiError _ _); reflexivity. Qed.

Lemma on_brief_complete_disconnects e s data :
  connected (on_brief_complete e s data) = false.
Proof.
  unfold on_brief_complete.
  destruct (get data "success") as [ok|]; [|reflexivity].
  destruct (truthy ok).
  - destruct (response_of_complete _ _); reflexivity.
  - match goal with |- context [match ?c with Normal _ => _ | Throw _ => _ end] =>
      destruct c end; reflexivity.
Qed.

(** While the socket stays connected, an event adds exactly the status it
    is forwarded as. *)
Lemma step_connected s occ :
  connected (step s occ) = true ->
  connected s = true /\ emitted (step s occ) = (emitted s ++ forwarded occ)%list.
Proof.
  destruct occ as [e ev]. unfold forwarded.
  destruct ev as [|x|data|data|data|err]; simpl.
  - intros H. rewrite app_nil_r. auto.
  - intros H. rewrite app_nil_r. auto.
  - destruct (connected s) eqn:Hc; [|intros H; rewrite Hc in H; discriminate].
    destruct (status_of_update data); simpl; intros H;
      [auto | rewrite app_nil_r; auto].
  - destruct (connected s) eqn:Hc; [|intros H; rewrite Hc in H; discriminate].
    rewrite on_brief_complete_disconnects. discriminate.
  - destruct (on_then data) as [st|x]; simpl; [auto|].
    rewrite on_catch_disconnects. discriminate.
  - rewrite on_catch_disconnects. discriminate.
Qed.

Lemma emitted_in_arrival_order tr :
  connected (generateBrief tr) = true ->
  emitted (generateBrief tr) = flat_map forwarded tr.
Proof.
  induction tr as [|occ tr IH] using rev_ind; [reflexivity|].
  rewrite generateBrief_snoc. intros H.
  apply step_connected in H as [Hc ->].
  rewrite IH by exact Hc. rewrite flat_map_app. simpl. rewrite app_nil_r. reflexivity.
Qed.

Lemma simulated_stages_ordered : ordered stages.
Proof.
  split; simpl; repeat split;
    [ do 2 eexists; (split; [reflexivity | split; [reflexivity | simpl; lia]]) .. ].
Qed.

(** C4 (as amended).  [simulateGenerateBrief] emits one status per stage of
    its pipeline, in strictly increasing stage order and with non-decreasing
    percentages.  [generateBrief] does no ordering of its own: as long as
    the socket is connected, what it has passed to [onProgress] is, in order
    of arrival, the translation of every [progress_update] it received and
    one [uploading] status at 10% for the accepted POST. *)
Theorem progress_events_follow_arrival :
  (forall req,
     ordered (fst (simulateGenerateBrief req))
     /\ map stage (fst (simulateGenerateBrief req)) = map Declared simulated_pipeline)
  /\ (forall tr,
        connected (generateBrief tr) = true ->
        emitted (generateBrief tr) = flat_map forwarded tr).
Proof.
  split.
  - intros req. split; [apply simulated_stages_ordered | reflexivity].
  - apply emitted_in_arrival_order.
Qed.

Lemma progress_events_follow_arrival_witness :
  connected (generateBrief overtaken) = true
  /\ emitted (generateBrief overtaken) = flat_map forwarded overtaken.
Proof.
  split; [reflexivity|].
  apply (proj2 progress_events_follow_arrival overtaken). reflexivity.
Defined.

(** C4 (counterexample).  When the first [progress_update] of the server
    arrives before the answer to the POST, the observer sees
    [strategic_analysis] at 35% and then [uploading] at 10%.  When
    everything arrives in order and the server reports its first stage, the
    observer sees [uploading] twice. *)
Lemma forwarded_progress_is_not_ordered :
  ~ ordered (emitted (generateBrief overtaken))
  /\ ~ ordered (emitted (generateBrief in_order)).
Proof.
  split.
  - assert (E : emitted (generateBrief overtaken)
                = [ mkStatus (Declared strategic_analysis) (VNum 35)
                      (VStr "Claude Opus 4") (VStr "Strategic analysis");
                    mkStatus (Declared uploading) (VNum 10) (VStr "System")
                      (VStr "Processing request...") ]) by reflexivity.
    rewrite E. intros [_ [(x & y & Hx & Hy & Hle) _]].
    injection Hx as <-. injection Hy as <-. lia.
  - assert (E : emitted (generateBrief in_order)
                = [ mkStatus (Declared uploading) (VNum 10) (VStr "System")
                      (VStr "Processing request...");
                    mkStatus (Declared uploading) (VNum 20) (VStr "System")
                      (VStr "Uploading documents") ]) by reflexivity.
    rewrite E. intros [[(m & n & Hm & Hn & Hlt) _] _].
    injection Hm as <-. injection Hn as <-. lia.
Qed.

(** *** Reproducibility *)

Lemma response_of_complete_time t data :
  response_of_complete t data
  = match response_of_complete 0 data with
    | Normal r => Normal (at_time t r)
    | Throw x => Throw x
    end.
Proof.
  unfold response_of_complete.
  destruct (get data "brief_excerpt"); simpl; [|reflexivity].
  destruct (get data "full_result") as [full|]; simpl; [|reflexivity].
  destruct (opt_get full "length"); reflexivity.
Qed.

Lemma settle_agree p1 p2 o1 o2 :
  without_time p1 = without_time p2 ->
  without_time o1 = without_time o2 ->
  without_time (settle p1 o1) = without_time (settle p2 o2).
Proof. destruct p1, p2; simpl; intros H1 H2; try discriminate; auto. Qed.

Lemma on_catch_agree e1 e2 s1 s2 err :
  online e1 = online e2 -> agree s1 s2 ->
  agree (on_catch e1 s1 err) (on_catch e2 s2 err).
Proof.
  intros He (Hem & Hc & Hp). unfold on_catch. rewrite He.
  destruct (ErrorHandler.parseApiError (online e2) err) as [parsed|x];
    (split; [exact Hem | split; [reflexivity|]]); simpl;
    [apply settle_agree; [exact Hp | reflexivity] | exact Hp].
Qed.

Ltac agree_same := repeat split; first [assumption | congruence | simpl; congruence].

Lemma on_brief_complete_agree e1 e2 s1 s2 data :
  online e1 = online e2 -> agree s1 s2 ->
  agree (on_brief_complete e1 s1 data) (on_brief_complete e2 s2 data).
Proof.
  intros He (Hem & Hc & Hp). unfold on_brief_complete.
  destruct (get data "success") as [ok|x]; [|agree_same].
  destruct (truthy ok).
  - rewrite (response_of_complete_time (now e1)), (response_of_complete_time (now e2)).
    destruct (response_of_complete 0 data) as [r|x]; [|agree_same].
    split; [exact Hem | split; [reflexivity|]]. simpl.
    apply settle_agree; [exact Hp | reflexivity].
  - rewrite He.
    match goal with |- context [match ?c with Normal _ => _ | Throw _ => _ end] =>
      destruct c end; [|agree_same].
    split; [exact Hem | split; [reflexivity|]]. simpl.
    apply settle_agree; [exact Hp | reflexivity].
Qed.

Lemma step_agree e1 e2 ev s1 s2 :
  online e1 = online e2 -> agree s1 s2 ->
  agree (step s1 (e1, ev)) (step s2 (e2, ev)).
Proof.
  intros He H. destruct ev as [|x|data|data|data|err]; simpl.
  - exact H.
  - exact H.
  - destruct H as (Hem & Hc & Hp). rewrite Hc.
    destruct (connected s2) eqn:Hc2; [|agree_same].
    destruct (status_of_update data); agree_same.
  - pose proof H as (Hem & Hc & Hp). rewrite Hc.
    destruct (connected s2); [|exact H].
    apply on_brief_complete_agree; assumption.
  - destruct (on_then data) as [st|x].
    + destruct H as (Hem & Hc & Hp). agree_same.
    + apply on_catch_agree; assumption.
  - apply on_catch_agree; assumption.
Qed.

Lemma fold_agree tr1 :
  forall tr2 s1 s2,
    same_events tr1 tr2 -> agree s1 s2 ->
    agree (fold_left step tr1 s1) (fold_left step tr2 s2).
Proof.
  induction tr1 as [|[e1 ev1] tr1 IH]; intros [|[e2 ev2] tr2] s1 s2 [Hev Hon] H;
    simpl in *; try discriminate; [exact H|].
  injection Hev as -> Hev. injection Hon as Hon1 Hon.
  apply IH; [split; assumption|]. apply step_agree; assumption.
Qed.

(** C6 (as amended).  [simulateGenerateBrief] is a function of the brief
    type and the jurisdiction alone: requests that agree on the two produce
    the same statuses and the same response.  Two runs of [generateBrief] that
    receive the same events emit the same statuses and settle alike, with
    equal brief, word count and citation count; the [processingTime] of the
    response is the clock reading at completion and not a function of the
    inputs. *)
Theorem runs_agree_up_to_the_clock :
  (forall r1 r2,
     briefType r1 = briefType r2 -> jurisdiction r1 = jurisdiction r2 ->
     simulateGenerateBrief r1 = simulateGenerateBrief r2)
  /\ (forall tr1 tr2,
        same_events tr1 tr2 -> agree (generateBrief tr1) (generateBrief tr2)).
Proof.
  split.
  - intros r1 r2 Hb Hj. unfold simulateGenerateBrief, sampleBrief.
    rewrite Hb, Hj. reflexivity.
  - intros tr1 tr2 H. apply fold_agree; [exact H|]. repeat split.
Qed.

Lemma runs_agree_up_to_the_clock_witness :
  agree (generateBrief (successful_run 2000)) (generateBrief (successful_run 3000))
  /\ simulateGenerateBrief (mkRequest frye_motion [] "Dr. A" "Federal")
     = simulateGenerateBrief (mkRequest frye_motion [] "Dr. B" "Federal").
Proof.
  split.
  - apply (proj2 runs_agree_up_to_the_clock). split; reflexivity.
  - apply (proj1 runs_agree_up_to_the_clock); reflexivity.
Defined.

(** C6 (counterexample).  The same events, delivered to the same browser,
    with the completion handled at two different times: the two responses
    differ. *)
Lemma same_events_different_results :
  same_events (successful_run 2000) (successful_run 3000)
  /\ promise (generateBrief (successful_run 2000))
     <> promise (generateBrief (successful_run 3000)).
Proof. split; [split; reflexivity|]. vm_compute. discriminate. Qed.

End ApiFacts.

(** ** Validation before a request is sent *)
Section ValidationFacts.

Import Scenarios.

Lemma handleGenerateBrief_guard s :
  App.selectedBriefType s = None \/ App.uploadedFiles s = []
  \/ App.selectedExpert s = "" ->
  App.handleGenerateBrief s = (s, None).
Proof.
  unfold App.handleGenerateBrief. intros [H|[H|H]].
  - rewrite H. reflexivity.
  - rewrite H. destruct (App.selectedBriefType s); reflexivity.
  - rewrite H. destruct (App.selectedBriefType s); [|reflexivity].
    rewrite orb_true_r. reflexivity.
Qed.

Lemma handleGenerate_guard u :
  truthy (WebApp.input_value "expert-name" u) = false
  \/ truthy (WebApp.input_value "strategy" u) = false
  \/ truthy (WebApp.input_value "motion-type" u) = false ->
  WebApp.handleGenerate u = WebApp.alert "Please fill in all fields" u.
Proof.
  intros H. unfold WebApp.handleGenerate, WebApp.read, mbind, WebApp.action_bind,
    WebApp.seq. simpl.
  destruct H as [H|[H|H]]; rewrite H; simpl;
    rewrite ?orb_true_r; reflexivity.
Qed.

(** C5 (as amended).  In the React client a missing brief type, an empty
    file list or an empty expert name makes [handleGenerateBrief] return at
    once: the state is untouched (no progress state) and no request is made,
    whatever happens afterwards.  In the web application an empty expert
    name, strategy or motion type makes [handleGenerate] show the alert
    [Please fill in all fields] and nothing else: no request is sent and the
    page is not touched; its upload form, submitted with no file selected,
    does nothing at all.  None of them raises an error value. *)
Theorem incomplete_form_sends_nothing :
  (forall s,
     App.selectedBriefType s = None \/ App.uploadedFiles s = []
     \/ App.selectedExpert s = "" ->
     App.handleGenerateBrief s = (s, None)
     /\ forall tr, App.session s tr = (s, None))
  /\ (forall u,
        truthy (WebApp.input_value "expert-name" u) = false
        \/ truthy (WebApp.input_value "strategy" u) = false
        \/ truthy (WebApp.input_value "motion-type" u) = false ->
        WebApp.handleGenerate u
        = (Normal tt,
           WebApp.mkUi (WebApp.currentBriefTask u) (WebApp.currentProcessTask u)
             (WebApp.briefHistory u) (WebApp.localStorage u) (WebApp.dom u)
             (WebApp.alerts u ++ ["Please fill in all fields"])%list
             (WebApp.fetches u)))
  /\ (forall u,
        WebApp.dom u !! ("file-input", "files") = Some (VArr []) ->
        WebApp.handleUpload u = (Normal tt, u)).
Proof.
  split; [|split].
  - intros s H. pose proof (handleGenerateBrief_guard s H) as Hg.
    split; [exact Hg|]. intros tr. unfold App.session. rewrite Hg. reflexivity.
  - intros u H. rewrite (handleGenerate_guard u H). reflexivity.
  - intros u H. unfold WebApp.handleUpload, WebApp.read, WebApp.lift, mbind,
      WebApp.action_bind, WebApp.seq. simpl. rewrite H. reflexivity.
Qed.

Lemma incomplete_form_sends_nothing_witness :
  WebApp.fetches (WebApp.exec WebApp.handleGenerate WebApp.initial) = []
  /\ App.handleGenerateBrief
       (App.mkState [] (Some Api.daubert_motion) "Dr. A" "Federal" None None None None)
     = (App.mkState [] (Some Api.daubert_motion) "Dr. A" "Federal" None None None None,
        None).
Proof.
  split.
  - unfold WebApp.exec.
    rewrite (proj1 (proj2 incomplete_form_sends_nothing) WebApp.initial
               (or_introl eq_refl)).
    reflexivity.
  - apply (proj1 incomplete_form_sends_nothing). right. left. reflexivity.
Defined.

(** C5 (counterexample).  The web application never looks at the document
    set: with the three fields filled in and no document selected,
    [handleGenerate] shows the progress bar and sends the request. *)
Lemma request_sent_without_documents :
  WebApp.dom filled_form_no_documents !! ("file-input", "files") = Some (VArr [])
  /\ WebApp.fetches (WebApp.exec WebApp.handleGenerate filled_form_no_documents)
     = [ WebApp.mkFetch "/api/generate-brief"
           (Some (VObj [("expert_name", VStr "Dr. A");
                        ("strategy", VStr "challenge");
                        ("motion_type",
                         VStr "Daubert Motion to Exclude Expert Testimony")])) ]
  /\ WebApp.dom (WebApp.exec WebApp.handleGenerate filled_form_no_documents)
       !! ("progress-stage", "textContent") = Some (VStr "Initializing").
Proof. repeat split; vm_compute; reflexivity. Qed.

End ValidationFacts.

(** ** The dropzone *)
Section FileUploadFacts.

Import FileUpload Scenarios.

Lemma matches_extension f ext :
  String.prefix "." (toLowerCase ext) = true ->
  matches f ext = endsWith (toLowerCase (file_name f)) (toLowerCase ext).
Proof. intros H. unfold matches. rewrite H. reflexivity. Qed.

Lemma matches_wildcard f pat :
  String.prefix "." (toLowerCase pat) = false ->
  endsWith (toLowerCase pat) "/*" = true ->
  matches f pat
  = String.eqb (before_slash (toLowerCase (file_type f)))
      (before_slash (toLowerCase pat)).
Proof. intros H1 H2. unfold matches. rewrite H1, H2. reflexivity. Qed.

Lemma matches_exact f mime :
  String.prefix "." (toLowerCase mime) = false ->
  endsWith (toLowerCase mime) "/*" = false ->
  matches f mime = String.eqb (toLowerCase (file_type f)) (toLowerCase mime).
Proof. intros H1 H2. unfold matches. rewrite H1, H2. reflexivity. Qed.

Ltac by_extension H :=
  rewrite matches_extension in H by reflexivity;
  right; right; right; eexists; split; [|exact H]; simpl; tauto.

Ltac by_mime H :=
  rewrite matches_exact in H by reflexivity;
  apply String.eqb_eq in H; right; left; rewrite H; simpl; tauto.

Lemma fileAccepted_kind f : fileAccepted f = true <-> accepted_kind f.
Proof.
  unfold fileAccepted, accepted_kind. rewrite orb_true_iff, String.eqb_eq.
  split.
  - intros [H|H]; [left; exact H|].
    apply existsb_exists in H as (valid & Hin & H).
    simpl in Hin.
    destruct Hin as [<-|[<-|[<-|[<-|[<-|[<-|[<-|[<-|[<-|[<-|[<-|[<-|[<-|[]]]]]]]]]]]]]].
    + by_mime H.
    + by_extension H.
    + by_mime H.
    + by_extension H.
    + by_mime H.
    + by_extension H.
    + by_mime H.
    + by_extension H.
    + rewrite matches_wildcard in H by reflexivity.
      apply String.eqb_eq in H. right; right; left. exact H.
    + by_extension H.
    + by_extension H.
    + by_extension H.
    + by_extension H.
  - intros [H|[H|[H|(ext & Hin & H)]]]; [left; exact H | right..];
      apply existsb_exists.
    + exists (toLowerCase (file_type f)). split.
      * simpl in H. unfold accept_attr. simpl.
        destruct H as [<-|[<-|[<-|[<-|[]]]]]; tauto.
      * simpl in H.
        destruct H as [E|[E|[E|[E|[]]]]]; rewrite <- E;
          rewrite matches_exact by reflexivity; rewrite <- E;
          apply String.eqb_refl.
    + exists "image/*". split; [unfold accept_attr; simpl; tauto|].
      rewrite matches_wildcard by reflexivity. rewrite H. reflexivity.
    + exists ext. split.
      * unfold accept_attr. simpl in *. tauto.
      * simpl in Hin.
        destruct Hin as [<-|[<-|[<-|[<-|[<-|[<-|[<-|[<-|[]]]]]]]]];
          rewrite matches_extension by reflexivity; exact H.
Qed.

Lemma onDrop_names draw l :
  map Api.name (onDrop draw l) = map file_name l.
Proof.
  unfold onDrop. revert draw.
  induction l as [|f l IH]; intros draw; simpl; [reflexivity|].
  f_equal. apply IH.
Qed.

Lemma onDrop_types draw l :
  map Api.type (onDrop draw l) = map file_type l.
Proof.
  unfold onDrop. revert draw.
  induction l as [|f l IH]; intros draw; simpl; [reflexivity|].
  f_equal. apply IH.
Qed.

(** What the selector does to one file. *)
Lemma withMimeType_spec types f :
  file_name (withMimeType types f) = file_name f
  /\ file_size (withMimeType types f) = file_size f
  /\ (file_type f <> "" -> withMimeType types f = f)
  /\ (file_type f = "" ->
      file_type (withMimeType types f) = listed_type types (file_name f)).
Proof.
  unfold withMimeType, listed_type.
  destruct (after_last_dot (file_name f)) as [ext|].
  - destruct (String.eqb (file_type f) "") eqn:E.
    + apply String.eqb_eq in E.
      destruct (types (toLowerCase ext)) as [t|]; simpl.
      * destruct (String.eqb t "") eqn:Et; simpl.
        -- apply String.eqb_eq in Et. subst t. repeat split; congruence.
        -- repeat split; congruence.
      * repeat split; congruence.
    + apply String.eqb_neq in E. repeat split; congruence.
  - repeat split; auto.
Qed.

(** C7 (as amended).  The dropzone judges a file after the file selector
    of its library has completed it: the name and the size stay, a MIME type
    stays, and a file without one gets the type the library lists for its
    extension, if any.  It lets through exactly the completed files whose
    MIME type is [application/x-moz-file], that of a PDF, a DOC, a DOCX or a
    plain text, or any image type, or whose name ends in .pdf, .doc, .docx,
    .txt, .png, .jpg, .jpeg or .gif (letter case apart).  The accepted files
    among those handed over (all the files of the event, less the thumbnail
    caches of a drop) are added in order, with their completed types, to the
    uploaded list; the other files are left out without any error. *)
Theorem dropzone_accepts_documents_and_images :
  (forall types f,
     file_name (withMimeType types f) = file_name f
     /\ file_size (withMimeType types f) = file_size f
     /\ (file_type f <> "" -> withMimeType types f = f)
     /\ (file_type f = "" ->
         file_type (withMimeType types f) = listed_type types (file_name f))
     /\ (fileAccepted (withMimeType types f) = true
         <-> accepted_kind (withMimeType types f)))
  /\ (forall types g draw files s,
        let handed_over :=
          List.filter
            (fun f => match g with
                      | dropped_on =>
                          negb (String.eqb (file_name f) ".DS_Store")
                          && negb (String.eqb (file_name f) "Thumbs.db")
                      | chosen_in_dialog => true
                      end)
            (map (withMimeType types) files) in
        let added := List.filter fileAccepted handed_over in
        map Api.name (App.uploadedFiles (drop types g draw files s))
        = (map Api.name (App.uploadedFiles s) ++ map file_name added)%list
        /\ map Api.type (App.uploadedFiles (drop types g draw files s))
           = (map Api.type (App.uploadedFiles s) ++ map file_type added)%list).
Proof.
  split.
  - intros types f.
    destruct (withMimeType_spec types f) as (Hn & Hs & Ht & Hl).
    repeat split; auto; apply fileAccepted_kind.
  - intros types g draw files s handed_over added. subst added handed_over.
    assert (E : fromEvent types g files
                = List.filter
                    (fun f => match g with
                              | dropped_on =>
                                  negb (String.eqb (file_name f) ".DS_Store")
                                  && negb (String.eqb (file_name f) "Thumbs.db")
                              | chosen_in_dialog => true
                              end)
                    (map (withMimeType types) files)).
    { unfold fromEvent. destruct g.
      - apply List.filter_ext. intros f. simpl.
        rewrite orb_false_r, negb_orb. reflexivity.
      - symmetry. apply forallb_filter_id.
        induction (map (withMimeType types) files); simpl; auto. }
    unfold drop, App.handleFilesUpload. simpl. rewrite E.
    rewrite !map_app, onDrop_names, onDrop_types. split; reflexivity.
Qed.

Lemma dropzone_accepts_documents_and_images_witness :
  file_type (withMimeType lists_webp photo) = "image/webp"
  /\ accepted_kind (withMimeType lists_webp photo).
Proof.
  destruct (proj1 dropzone_accepts_documents_and_images lists_webp photo)
    as (_ & _ & _ & Ht & Ha).
  split; [apply Ht; reflexivity | apply Ha; reflexivity].
Defined.

(** C7 (counterexample).  A PNG image is none of the listed document
    formats, and the dropzone accepts it: however it reaches the zone, it is
    added to the uploaded list. *)
Lemma image_is_accepted :
  listed_document scan = false
  /\ forall types g draw s,
       map Api.name (App.uploadedFiles (drop types g draw [scan] s))
       = (map Api.name (App.uploadedFiles s) ++ ["scan.png"])%list.
Proof.
  split; [reflexivity|].
  intros types g draw s. unfold drop, App.handleFilesUpload. simpl.
  rewrite map_app. f_equal. destruct g; reflexivity.
Qed.

(** The browser knows no type for [photo.webp]: the file is let through
    when the library lists the extension, and refused when it does not. *)
Lemma typeless_photo_depends_on_the_table :
  fileAccepted (withMimeType lists_webp photo) = true
  /\ fileAccepted (withMimeType (fun _ => None) photo) = false.
Proof. split; reflexivity. Qed.

End FileUploadFacts.

(** ** The web application *)
Section WebAppFacts.

Import WebApp Scenarios.

Variable stringify : list (list (string * value)) -> string.
Variable updateProcessingProgress : value -> value -> action unit.
Variable reset_form :
  string -> gmap (string * string) value -> gmap (string * string) value.

(** C9.  A socket event whose [task_id] is not identical to the task the
    page tracks for that kind of event (also one that carries no [task_id]
    at all) leaves the page and the script's variables as they were. *)
Theorem foreign_task_events_are_ignored :
  forall date ev u,
    (forall t, get (payload ev) "task_id" = Normal t ->
               strict_eq t (tracked ev u) = false) ->
    on_socket stringify updateProcessingProgress reset_form date ev u = u.
Proof.
  intros date ev u H.
  unfold on_socket, exec, listener, mbind, action_bind, seq, lift, read. simpl.
  destruct (get (payload ev) "task_id") as [t|x]; simpl; [|reflexivity].
  rewrite (H t eq_refl). reflexivity.
Qed.

(** A matching event does change the page. *)
Lemma own_task_event_is_shown date :
  dom (on_socket stringify updateProcessingProgress reset_form date
         (brief_progress own_progress) generating)
    !! ("progress-stage", "textContent") = Some (VStr "Legal research").
Proof. vm_compute. reflexivity. Qed.

Lemma updateHistoryTable_keeps u :
  briefHistory (snd (updateHistoryTable u)) = briefHistory u
  /\ localStorage (snd (updateHistoryTable u)) = localStorage u.
Proof.
  unfold updateHistoryTable, mbind, action_bind, seq, read, lift. simpl.
  destruct (briefHistory u) as [|item rest] eqn:Hh; simpl; [auto|].
  match goal with |- context [match ?c with Normal _ => _ | Throw _ => _ end] =>
    destruct c end; simpl; auto.
Qed.




End WebAppFacts.


Lemma foreign_task_events_are_ignored_witness :
  WebApp.on_socket (fun _ => "") (fun _ _ => WebApp.ret tt) (fun _ page => page)
    "2025-07-22T10:00:00.000Z"
    (WebApp.brief_progress Scenarios.foreign_progress) Scenarios.generating
  = Scenarios.generating.
Proof.
  apply foreign_task_events_are_ignored.
  intros t [= <-]. reflexivity.
Defined.

(** ** The fan-out of the orchestrator *)
Section PipelineFacts.

Import Pipeline.

Lemma no_await_issued_before tr :
  ~ In await_pair tr -> issued_before_await tr.
Proof.
  intros H before after ->. exfalso. apply H.
  apply in_or_app. right. left. reflexivity.
Qed.

Lemma issued_before_await_snoc tr l :
  l <> await_pair -> issued_before_await tr -> issued_before_await (tr ++ [l]).
Proof.
  intros Hl H before after E.
  destruct after as [|x after _] using rev_ind.
  - apply app_inj_tail in E as [_ E]. congruence.
  - change (before ++ await_pair :: after ++ [x])%list
      with (before ++ (await_pair :: after) ++ [x])%list in E.
    rewrite app_assoc in E. apply app_inj_tail in E as [E _].
    apply (H before after E).
Qed.

Lemma issued_before_await_first tr :
  ~ In await_pair tr -> In (issue Legal) tr -> In (issue Scientific) tr ->
  issued_before_await (tr ++ [await_pair]).
Proof.
  intros Hno Hl Hs before after E.
  destruct after as [|x after _] using rev_ind.
  - apply app_inj_tail in E as [-> _]. auto.
  - change (before ++ await_pair :: after ++ [x])%list
      with (before ++ (await_pair :: after) ++ [x])%list in E.
    rewrite app_assoc in E. apply app_inj_tail in E as [-> _].
    exfalso. apply Hno. apply in_or_app. right. left. reflexivity.
Qed.

Lemma joined_after_both_snoc tr l :
  joined_after_both tr -> joined_after_both (tr ++ [l]).
Proof.
  intros (a & b & before & after & -> & Ha & Hb).
  exists a, b, before, (after ++ [l])%list.
  split; [|auto]. rewrite <- app_assoc. reflexivity.
Qed.

Lemma not_in_snoc (tr : list label) l x :
  ~ In x tr -> l <> x -> ~ In x (tr ++ [l]).
Proof.
  intros H Hl Hin. apply in_app_or in Hin as [Hin|[Hin|[]]]; auto.
Qed.

Lemma call_error_issued who c e : call_error who c = Some e -> issued c = true.
Proof. destruct c; simpl; intros H; try discriminate; reflexivity. Qed.

Lemma step_consistent tr s l s' :
  consistent tr s -> step s l s' -> consistent (tr ++ [l]) s'.
Proof.
  intros H Hstep.
  destruct Hstep as [ | c | c | c outcome Hfin | c outcome Hfin | a b
                    | c1 c2 e Hi He | c1 c2 e Hi He | a a' b | a b b' | a b
                    | a b d | a b d e | s a Hs ]; simpl in *.
  - split; [apply not_in_snoc; [exact H | discriminate]|].
    repeat split; intros; discriminate.
  - destruct H as (Hno & _ & Hs & _ & Hb).
    split; [apply not_in_snoc; [exact Hno | discriminate]|].
    split; [intros _; apply in_or_app; right; left; reflexivity|].
    split; [intros Hc; apply in_or_app; left; auto|].
    split; [intros a; discriminate|].
    intros b Hc. apply in_or_app. left. auto.
  - destruct H as (Hno & Hl & _ & Ha & _).
    split; [apply not_in_snoc; [exact Hno | discriminate]|].
    split; [intros Hc; apply in_or_app; left; auto|].
    split; [intros _; apply in_or_app; right; left; reflexivity|].
    split; [intros a Hc; apply in_or_app; left; auto|].
    intros b; discriminate.
  - destruct H as (Hno & Hl & Hs & _ & Hb).
    split; [apply not_in_snoc; [exact Hno | discriminate]|].
    split; [intros _; apply in_or_app; left; auto|].
    split; [intros Hc; apply in_or_app; left; auto|].
    split; [intros a ->; apply in_or_app; right; left; reflexivity|].
    intros b Hc. apply in_or_app. left. auto.
  - destruct H as (Hno & Hl & Hs & Ha & _).
    split; [apply not_in_snoc; [exact Hno | discriminate]|].
    split; [intros Hc; apply in_or_app; left; auto|].
    split; [intros _; apply in_or_app; left; auto|].
    split; [intros a Hc; apply in_or_app; left; auto|].
    intros b ->. apply in_or_app. right. left. reflexivity.
  - destruct H as (Hno & Hl & Hs & Ha & Hb). split.
    + apply issued_before_await_first; auto.
    + exists a, b, tr, []. auto.
  - destruct H as (Hno & Hl & Hs & _ & _).
    apply issued_before_await_first; eauto using call_error_issued.
  - destruct H as (Hno & Hl & Hs & _ & _).
    apply issued_before_await_first; eauto using call_error_issued.
  - destruct H as (Hi & Hj).
    split; [apply issued_before_await_snoc; [discriminate | exact Hi]
           | apply joined_after_both_snoc, Hj].
  - destruct H as (Hi & Hj).
    split; [apply issued_before_await_snoc; [discriminate | exact Hi]
           | apply joined_after_both_snoc, Hj].
  - destruct H as (Hi & Hj).
    split; [apply issued_before_await_snoc; [discriminate | exact Hi]
           | apply joined_after_both_snoc, Hj].
  - destruct H as (Hi & Hj).
    split; [apply issued_before_await_snoc; [discriminate | exact Hi]
           | apply joined_after_both_snoc, Hj].
  - destruct H as (Hi & Hj).
    split; [apply issued_before_await_snoc; [discriminate | exact Hi]
           | apply joined_after_both_snoc, Hj].
  - apply issued_before_await_snoc; [discriminate|].
    destruct s; simpl in *; try contradiction;
      [apply no_await_issued_before; exact H | apply H ..].
Qed.

Lemma run_consistent tr s : run Anonymizing tr s -> consistent tr s.
Proof.
  intros H. remember Anonymizing as s0 eqn:E.
  induction H as [s | s tr s' l s'' Hrun IH Hstep].
  - subst s. simpl. intros [].
  - eapply step_consistent; [apply IH; exact E | exact Hstep].
Qed.

Lemma consistent_issued_before tr s : consistent tr s -> issued_before_await tr.
Proof.
  destruct s; simpl; intros H; try (apply H);
    apply no_await_issued_before; apply H.
Qed.

(** C2.  In every run of the orchestrator both researcher calls are issued
    before the pair is awaited, and a state beyond the fan-out (stage 4, the
    Drafter, the Editor, the finished Brief) is reached only through an await
    that comes after both researchers had returned a result: with a call that
    failed or timed out the await aborts the Case. *)
Theorem stage_four_waits_for_both_researchers :
  forall tr s,
    run Anonymizing tr s ->
    issued_before_await tr
    /\ (past_fan_out s = true -> joined_after_both tr).
Proof.
  intros tr s H. apply run_consistent in H.
  split; [eapply consistent_issued_before, H|].
  destruct s; simpl in *; try discriminate; intros _; apply H.
Qed.

Lemma run_cons s l s' tr s'' :
  step s l s' -> run s' tr s'' -> run s (l :: tr) s''.
Proof.
  intros Hstep Hrun. induction Hrun as [s' | s' tr s1 l' s2 Hrun IH Hstep'].
  - apply (run_snoc s [] s l s'); [apply run_nil | exact Hstep].
  - change (l :: tr ++ [l'])%list with ((l :: tr) ++ [l'])%list.
    eapply run_snoc; [apply IH; exact Hstep | exact Hstep'].
Defined.

Lemma run_both_return :
  run Anonymizing both_return
    (Reviewing (mkResult "challenge" ["Daubert"] "precedents")
               (mkResult "challenge" ["Ross 2022"] "literature")).
Proof.
  unfold both_return.
  eapply run_cons; [apply step_anonymized|].
  eapply run_cons; [apply step_issue_legal|].
  eapply run_cons; [apply step_issue_scientific|].
  eapply run_cons; [apply step_ends_scientific; reflexivity|].
  eapply run_cons; [apply step_ends_legal; reflexivity|].
  eapply run_cons; [apply step_join|].
  apply run_nil.
Defined.

Lemma stage_four_waits_for_both_researchers_witness :
  issued_before_await both_return /\ joined_after_both both_return.
Proof.
  destruct (stage_four_waits_for_both_researchers _ _ run_both_return) as [H1 H2].
  split; [exact H1 | apply H2; reflexivity].
Defined.

End PipelineFacts.

(** ** The launcher *)
Section LauncherFacts.

Import Launcher.

Lemma wait_for_docker_bound w remaining call :
  (remaining <= 60)%nat -> (wait_for_docker w remaining call <= 60)%nat.
Proof.
  revert call. induction remaining as [|r IH]; intros call H; simpl.
  - destruct (docker w call); lia.
  - destruct (docker w call); [lia|]. apply IH. lia.
Qed.

(** The loop stops below 60 exactly when one of the calls it makes while
    [attempts] is below 60 finds Docker running. *)
Lemma wait_for_docker_early w remaining call :
  (remaining <= 60)%nat ->
  ((wait_for_docker w remaining call < 60)%nat <->
   exists k, (call <= k < call + remaining)%nat /\ docker w k = true).
Proof.
  revert call. induction remaining as [|r IH]; intros call H; simpl.
  - destruct (docker w call); split; try lia; intros (k & Hk & _); lia.
  - destruct (docker w call) eqn:Hd.
    + split; [|lia]. intros _. exists call. split; [lia | exact Hd].
    + rewrite IH by lia. split; intros (k & Hk & Hdk).
      * exists k. split; [lia | exact Hdk].
      * exists k. split; [|exact Hdk].
        destruct (Nat.eq_dec k call) as [->|]; [congruence | lia].
Qed.

Lemma count_sleeps_repeat n :
  List.length (List.filter is_sleep (repeat sleep n)) = n.
Proof. induction n as [|n IH]; simpl; congruence. Qed.

(** X1.  [startDocker] reports success exactly when Docker answers the
    first [docker info], or, Docker Desktop having been spawned, one of the
    next 60 calls; it never sleeps more than 60 times.  An answer at the
    61st call after the spawn comes too late. *)
Theorem startDocker_succeeds_within_sixty_polls :
  forall w st,
    (fst (startDocker w st) = true <->
     docker w 0%nat = true
     \/ (spawn_throws w = false
         /\ exists k, (1 <= k <= 60)%nat /\ docker w k = true))
    /\ (List.length (List.filter is_sleep (snd (startDocker w st))) <= 60)%nat.
Proof.
  intros w st. unfold startDocker. cbv zeta.
  pose proof (wait_for_docker_bound w 60 1 (le_n 60)) as Hb.
  pose proof (wait_for_docker_early w 60 1 (le_n 60)) as He.
  set (attempts := wait_for_docker w 60 1) in *. clearbody attempts.
  destruct (60 <=? attempts)%nat eqn:Hle;
    [apply Nat.leb_le in Hle | apply Nat.leb_gt in Hle];
    (destruct (docker w 0%nat) eqn:H0; [split; simpl; [tauto | lia]|]);
    (destruct (spawn_throws w) eqn:Hs;
     [split; simpl; [|lia]; split; [discriminate|];
      intros [H|[H _]]; discriminate|]).
  - split.
    + cbn [fst]. split; [discriminate|].
      intros [H|[_ (k & Hk & Hd)]]; [discriminate|].
      assert (attempts < 60)%nat by (apply He; exists k; split; [lia|exact Hd]).
      lia.
    + cbn [snd]. rewrite !List.filter_app, !length_app. simpl.
      rewrite count_sleeps_repeat. lia.
  - split.
    + cbn [fst]. split; [|reflexivity]. intros _. right. split; [reflexivity|].
      apply He in Hle as (k & Hk & Hd). exists k. split; [lia | exact Hd].
    + cbn [snd]. rewrite !List.filter_app, !length_app. simpl.
      rewrite count_sleeps_repeat. lia.
Qed.

Lemma forallb_repeat_sleep n : forallb on_the_way (repeat sleep n) = true.
Proof. induction n as [|n IH]; simpl; auto. Qed.

Lemma startDocker_on_the_way w st :
  forallb on_the_way (snd (startDocker w st)) = true.
Proof.
  unfold startDocker. cbv zeta.
  destruct (docker w 0%nat); [reflexivity|].
  destruct (spawn_throws w); [reflexivity|].
  destruct (60 <=? wait_for_docker w 60 1)%nat; cbn [snd];
    rewrite ?forallb_app; cbn [forallb on_the_way docker_error andb];
    rewrite forallb_repeat_sleep; reflexivity.
Qed.

Lemma startLexicon_on_the_way w : forallb on_the_way (snd (startLexicon w)) = true.
Proof.
  unfold startLexicon. destruct (deploy w) as [[[|c|c]|]|]; reflexivity.
Qed.

Lemma startLexicon_deployed w :
  (exists u, fst (startLexicon w) = Some (Normal u)) <-> deploy w = closed (Some 0).
Proof.
  unfold startLexicon. destruct (deploy w) as [[[|c|c]|]|]; simpl;
    split; try discriminate; eauto; intros [u H]; discriminate.
Qed.

Lemma startLexicon_failed w :
  (exists err, fst (startLexicon w) = Some (Throw err))
  <-> exists code, deploy w = closed code /\ code <> Some 0.
Proof.
  unfold startLexicon. destruct (deploy w) as [[[|c|c]|]|]; simpl; split;
    try (intros [x H]; discriminate);
    try (intros (code & H & Hc); congruence);
    try (intros _; eexists; split; [reflexivity | discriminate]);
    eauto.
Qed.

Lemma startLexicon_waits w :
  fst (startLexicon w) = None <-> deploy w = never_closed.
Proof.
  unfold startLexicon. destruct (deploy w) as [[[|c|c]|]|]; simpl;
    split; try discriminate; reflexivity.
Qed.

Lemma checkFirstRun_spec w st :
  let '(proceed, st1, e1) := checkFirstRun w st in
  forallb on_the_way e1 = true
  /\ (proceed = Some true <-> set_up w st)
  /\ (proceed = Some false <-> cancelled w st)
  /\ (proceed = None <-> unanswered w st)
  /\ (proceed = Some true -> firstRun st1 = false)
  /\ (proceed <> Some true -> st1 = st).
Proof.
  unfold checkFirstRun, showSetupWizard, set_up, cancelled, unanswered.
  destruct (firstRun st) eqn:Hf.
  - destruct (answer w) as [[keys path|]|] eqn:Ha; simpl.
    + repeat split; eauto; try discriminate; try congruence;
        intros [_ H]; discriminate.
    + repeat split; try discriminate; auto.
      * intros [H|(k & q & H)]; discriminate.
      * intros [_ H]; discriminate.
    + repeat split; try discriminate; auto.
      * intros [H|(k & q & H)]; discriminate.
      * intros [_ H]; discriminate.
  - simpl. repeat split; auto; try discriminate; try congruence;
      intros [H _]; discriminate.
Qed.

Lemma not_on_the_way_in e l :
  on_the_way e = false -> forallb on_the_way l = true -> ~ In e l.
Proof.
  intros He Hl Hin. rewrite forallb_forall in Hl. apply Hl in Hin. congruence.
Qed.

Ltac way_out :=
  repeat match goal with
  | H : In _ (_ ++ _) |- _ => apply in_app_or in H as [H|H]
  | H : In _ (_ :: _) |- _ => destruct H as [H|H]; try discriminate
  | H : In _ [] |- _ => destruct H
  | H : In ?e ?l, F : forallb on_the_way ?l = true |- _ =>
      exfalso; exact (not_on_the_way_in e l eq_refl F H)
  | H : In _ (if ?b then _ else _) |- _ => destruct b
  end.

Lemma startDocker_settings w st st' :
  fst (startDocker w st') = fst (startDocker w st).
Proof.
  unfold startDocker. cbv zeta.
  destruct (docker w 0%nat), (spawn_throws w),
    (60 <=? wait_for_docker w 60 1)%nat; reflexivity.
Qed.

(** The six ways a start can go, with what each leaves behind. *)
Lemma startup_cases w st :
  let effects := snd (startup w st) in
  (unanswered w st /\ ~ In tray_created effects /\ ~ In quit effects)
  \/ (cancelled w st /\ ~ In tray_created effects /\ In quit effects)
  \/ (set_up w st /\ fst (startDocker w st) = false
      /\ ~ In tray_created effects /\ In quit effects)
  \/ (set_up w st /\ fst (startDocker w st) = true /\ deploy w = closed (Some 0)
      /\ In tray_created effects /\ ~ In quit effects)
  \/ (set_up w st /\ fst (startDocker w st) = true
      /\ (exists code, deploy w = closed code /\ code <> Some 0)
      /\ ~ In tray_created effects /\ In quit effects)
  \/ (set_up w st /\ fst (startDocker w st) = true /\ deploy w = never_closed
      /\ ~ In tray_created effects /\ ~ In quit effects).
Proof.
  cbv zeta. unfold startup.
  pose proof (checkFirstRun_spec w st) as Hc.
  destruct (checkFirstRun w st) as [[proceed st1] e1].
  destruct Hc as (He1 & Hset & Hcan & Hun & Hfirst & Hsame).
  pose proof (startDocker_settings w st st1) as Hdock.
  pose proof (startDocker_on_the_way w st1) as He2.
  destruct (startDocker w st1) as [running e2]. cbn [fst snd] in *.
  pose proof (startLexicon_on_the_way w) as He3.
  pose proof (startLexicon_deployed w) as Hdep.
  pose proof (startLexicon_failed w) as Hfail.
  pose proof (startLexicon_waits w) as Hwait.
  destruct (startLexicon w) as [deployed e3]. cbn [fst snd] in *.
  destruct proceed as [[|]|]; cbn [snd].
  - assert (Hs : set_up w st) by (apply Hset; reflexivity).
    destruct running; cbn [negb snd].
    + destruct deployed as [[u|err]|]; cbn [snd].
      * right; right; right; left.
        split; [exact Hs|]. split; [congruence|].
        split; [apply Hdep; eauto|].
        split; [apply in_or_app; right; left; reflexivity|].
        intros H. way_out.
      * right; right; right; right; left.
        split; [exact Hs|]. split; [congruence|].
        split; [apply Hfail; eauto|].
        split; [intros H; way_out|].
        apply in_or_app. right. right. right. left. reflexivity.
      * right; right; right; right; right.
        split; [exact Hs|]. split; [congruence|].
        split; [apply Hwait; reflexivity|].
        split; intros H; way_out.
    + right; right; left.
      split; [exact Hs|]. split; [congruence|].
      split; [intros H; way_out|].
      apply in_or_app. right. right. left. reflexivity.
  - right; left. split; [apply Hcan; reflexivity|].
    split; [intros H; way_out|].
    apply in_or_app. right. left. reflexivity.
  - left. split; [apply Hun; reflexivity|].
    split; intros H; way_out.
Qed.

Lemma set_up_not_cancelled w st : set_up w st -> ~ cancelled w st.
Proof. intros [H|(k & q & H)] [H1 H2]; congruence. Qed.

Lemma set_up_not_unanswered w st : set_up w st -> ~ unanswered w st.
Proof. intros [H|(k & q & H)] [H1 H2]; congruence. Qed.

Lemma cancelled_not_unanswered w st : cancelled w st -> ~ unanswered w st.
Proof. intros [_ H] [_ H']; congruence. Qed.

Ltac fate :=
  repeat split; try tauto; intros;
  repeat match goal with
  | H : _ /\ _ |- _ => destruct H
  | H : _ \/ _ |- _ => destruct H
  | H : exists _, _ |- _ => destruct H
  end;
  try tauto; try congruence; eauto 8.

(** X2.  The tray icon is created exactly when the setup wizard is not in
    the way (not shown, or completed), Docker was found running or came up in
    time, and the deploy script closed with code 0.  The application quits
    exactly when the wizard is cancelled, Docker does not come up, or the
    script closes with another code.  The start does neither, and waits for
    ever behind its splash screen, exactly when the wizard is never answered
    or the deploy script never closes.  It never does both. *)
Theorem startup_creates_the_tray_or_quits :
  forall w st,
    let effects := snd (startup w st) in
    (In tray_created effects <->
       set_up w st /\ fst (startDocker w st) = true /\ deploy w = closed (Some 0))
    /\ (In quit effects <->
          cancelled w st
          \/ (set_up w st /\ fst (startDocker w st) = false)
          \/ (set_up w st /\ fst (startDocker w st) = true
              /\ exists code, deploy w = closed code /\ code <> Some 0))
    /\ (~ In tray_created effects /\ ~ In quit effects <->
          unanswered w st
          \/ (set_up w st /\ fst (startDocker w st) = true
              /\ deploy w = never_closed))
    /\ ~ (In tray_created effects /\ In quit effects).
Proof.
  intros w st effects. subst effects.
  pose proof (set_up_not_cancelled w st) as N1.
  pose proof (set_up_not_unanswered w st) as N2.
  pose proof (cancelled_not_unanswered w st) as N3.
  destruct (startup_cases w st)
    as [(Hu & Ht & Hq)|[(Hc & Ht & Hq)|[(Hs & Hd & Ht & Hq)|[(Hs & Hd & Hp & Ht & Hq)
        |[(Hs & Hd & (code & Hp & Hcode) & Ht & Hq)|(Hs & Hd & Hp & Ht & Hq)]]]]];
    cbv zeta in Ht, Hq; fate.
Qed.


End LauncherFacts.

(** ** What the React component shows *)
Section AppViewFacts.

Import Api App AppView ProgressTracker Scenarios.

Lemma setGenerationStatus_fold_keeps l s :
  let s' := fold_left (fun acc st => setGenerationStatus st acc) l s in
  generatedBrief s' = generatedBrief s
  /\ briefMetadata s' = briefMetadata s
  /\ (generationStatus s <> None -> generationStatus s' <> None)
  /\ (forall P : BriefGenerationStatus -> Prop,
        Forall P l ->
        (forall st, generationStatus s = Some st -> P st) ->
        forall st, generationStatus s' = Some st -> P st).
Proof.
  revert s. induction l as [|x l IH]; intros s; simpl.
  - repeat split; auto.
  - destruct (IH (setGenerationStatus x s)) as (H1 & H2 & H3 & H4).
    repeat split.
    + rewrite H1. reflexivity.
    + rewrite H2. reflexivity.
    + intros _. apply H3. discriminate.
    + intros P HP Hs st. inversion HP as [|? ? Hx Hl]; subst.
      apply H4; [exact Hl|]. simpl. intros st' [= <-]. exact Hx.
Qed.

Lemma on_event_outcome_held before sr occ :
  outcome_held before sr -> outcome_held before (on_event sr occ).
Proof.
  destruct sr as [s r]. unfold outcome_held, on_event. cbn [fst snd].
  intros [Hst H].
  set (r' := step r occ).
  destruct (setGenerationStatus_fold_keeps
              (skipn (List.length (emitted r)) (emitted r')) s)
    as (Hb & Hm & Hn & _).
  set (s1 := fold_left _ _ s) in *.
  destruct (settled (promise r)) eqn:Hset.
  - rewrite andb_false_r. cbn [fst snd]. subst r'.
    rewrite (step_keeps_settled r occ Hset). rewrite Hb, Hm. auto.
  - assert (Hp : promise r = Pending)
      by (destruct (promise r); [reflexivity | discriminate..]).
    rewrite Hp in H. rewrite andb_true_r.
    destruct (promise r') as [|result|err]; cbn [settled fst snd after_await];
      destruct H as [H1 H2];
      (split; [first [apply Hn; exact Hst | simpl; discriminate]
              | simpl; split; congruence]).
Qed.

Lemma fold_on_event_outcome_held before tr sr :
  outcome_held before sr -> outcome_held before (fold_left on_event tr sr).
Proof.
  revert sr. induction tr as [|occ tr IH]; intros sr H; simpl; [exact H|].
  apply IH, on_event_outcome_held, H.
Qed.

Lemma handleGenerateBrief_started s s0 req :
  handleGenerateBrief s = (s0, Some req) ->
  generationStatus s0 <> None
  /\ generatedBrief s0 = generatedBrief s
  /\ briefMetadata s0 = briefMetadata s
  /\ req = mkRequest (briefType req) (uploadedFiles s) (selectedExpert s)
             (App.jurisdiction s)
  /\ selectedBriefType s = Some (briefType req)
  /\ uploadedFiles s <> [] /\ selectedExpert s <> "".
Proof.
  unfold handleGenerateBrief.
  destruct (selectedBriefType s) as [bt|]; [|discriminate].
  destruct (List.length (uploadedFiles s) =? 0)%nat eqn:Hl; [discriminate|].
  destruct (String.eqb (selectedExpert s) "") eqn:He; [discriminate|].
  simpl. intros [= <- <-]. simpl.
  apply Nat.eqb_neq in Hl. apply String.eqb_neq in He.
  repeat split; auto; try discriminate.
  intros E. rewrite E in Hl. apply Hl. reflexivity.
Qed.

Lemma session_outcome_held s tr s' r :
  session s tr = (s', Some r) -> outcome_held s (s', r) /\ r = generateBrief tr.
Proof.
  unfold session. destruct (handleGenerateBrief s) as [s0 [req|]] eqn:Hg;
    [|discriminate].
  apply handleGenerateBrief_started in Hg as (Hn & Hb & Hm & _).
  pose proof (fold_on_event_outcome_held s tr (s0, start)) as H.
  pose proof (fold_on_event (generatedBrief s) tr (s0, start) Hb) as [_ Hr].
  destruct (fold_left on_event tr (s0, start)) as [s1 r1].
  intros [= <- <-]. split; [|exact Hr].
  apply H. split; [exact Hn | simpl; auto].
Qed.

Lemma response_brief_truthy t data r :
  response_of_complete t data = Normal r -> truthy (brief r) = true.
Proof.
  unfold response_of_complete.
  destruct (get data "brief_excerpt") as [excerpt|]; simpl; [|discriminate].
  destruct (get data "full_result") as [full|]; simpl; [|discriminate].
  destruct (opt_get full "length"); simpl; [|discriminate].
  intros [= <-]. simpl. unfold or_else.
  destruct (truthy excerpt) eqn:E; [exact E | reflexivity].
Qed.

Lemma render_metrics_throws m : exists err, render_metrics m = Throw err.
Proof.
  unfold render_metrics.
  destruct (WebApp.toLocaleString (metadata_field m "wordCount")) as [u|err];
    simpl; eauto.
Qed.

(** X4.  Once a run of [generateBrief] is fulfilled, the component cannot
    render: the metrics panel reads [agentsUsed.length] of a metadata object
    in which the service sets no [agentsUsed], which throws. *)
Theorem fulfilled_run_cannot_be_rendered :
  forall s tr s' r result,
    session s tr = (s', Some r) ->
    promise r = Fulfilled result ->
    exists err, render s' = Throw err.
Proof.
  intros s tr s' r result Hs Hp.
  destruct (session_outcome_held s tr s' r Hs) as [[Hn H] ->].
  cbn [fst snd] in *. rewrite Hp in H. destruct H as [Hb Hm].
  destruct (fulfilled_by_brief_complete tr result Hp)
    as (e & data & ok & _ & _ & _ & Hr).
  apply response_brief_truthy in Hr.
  unfold render. destruct (generationStatus s') as [st|]; [|congruence].
  rewrite Hb, Hr, Hm.
  destruct (render_metrics_throws result) as [err ->]. simpl. eauto.
Qed.

(** X5.  A run started from a page without a brief, as long as it is not
    fulfilled (pending, or rejected), leaves neither the form nor the brief
    panel on the page; the reset control is part of the brief panel. *)
Theorem unfulfilled_run_shows_no_form_and_no_reset :
  forall s tr s' r,
    generatedBrief s = None ->
    session s tr = (s', Some r) ->
    (forall result, promise r <> Fulfilled result) ->
    exists v, render s' = Normal v /\ form v = false /\ brief_panel v = None.
Proof.
  intros s tr s' r Hnone Hs Hp.
  destruct (session_outcome_held s tr s' r Hs) as [[Hn H] _].
  cbn [fst snd] in *.
  assert (Hb : generatedBrief s' = None).
  { destruct (promise r) as [|result|err]; [| exfalso; eapply Hp; reflexivity |];
      destruct H as [H _]; congruence. }
  unfold render. destruct (generationStatus s') as [st|]; [|congruence].
  rewrite Hb. eexists. split; [reflexivity|]. split; reflexivity.
Qed.

(** X6.  On the form, the generate button is shown exactly when a click on
    it starts a generation, and the request then carries the selected type,
    the uploaded files, the expert name and the jurisdiction; after a reset
    the button is not shown, although the expert name is kept. *)
Theorem generate_button_agrees_with_guard :
  forall s,
    generationStatus s = None ->
    exists v,
      render s = Normal v
      /\ (generate_button v = true <->
          exists bt,
            selectedBriefType s = Some bt
            /\ snd (handleGenerateBrief s)
               = Some (mkRequest bt (uploadedFiles s) (selectedExpert s)
                         (App.jurisdiction s)))
      /\ render (handleReset s)
         = Normal (mkView true false false false None None None None)
      /\ selectedExpert (handleReset s) = selectedExpert s.
Proof.
  intros s Hs. unfold render. rewrite Hs. eexists. split; [reflexivity|].
  split; [|split; reflexivity].
  cbn [generate_button]. unfold handleGenerateBrief.
  destruct (selectedBriefType s) as [bt|].
  - destruct (List.length (uploadedFiles s) =? 0)%nat; simpl.
    + split; [discriminate|]. intros (bt' & _ & H). discriminate.
    + destruct (String.eqb (selectedExpert s) ""); simpl.
      * split; [discriminate|]. intros (bt' & _ & H). discriminate.
      * split; [|reflexivity]. intros _. exists bt. split; reflexivity.
  - rewrite andb_false_r. simpl. split; [discriminate|].
    intros (bt' & H & _). discriminate.
Qed.

Lemma fulfilled_run_cannot_be_rendered_witness :
  exists err,
    render (fst (session Cases.ready (successful_run 2000))) = Throw err.
Proof.
  eapply (fulfilled_run_cannot_be_rendered Cases.ready (successful_run 2000));
    reflexivity.
Defined.

Lemma unfulfilled_run_shows_no_form_and_no_reset_witness :
  exists v,
    render (fst (session Cases.ready Cases.failed_run)) = Normal v
    /\ form v = false /\ brief_panel v = None.
Proof.
  eapply (unfulfilled_run_shows_no_form_and_no_reset Cases.ready Cases.failed_run);
    [reflexivity | reflexivity | intros result H; vm_compute in H; discriminate].
Defined.

Lemma generate_button_agrees_with_guard_witness :
  exists v, render Cases.ready = Normal v /\ generate_button v = true.
Proof.
  destruct (generate_button_agrees_with_guard Cases.ready eq_refl)
    as (v & Hv & Hb & _).
  exists v. split; [exact Hv|]. apply Hb.
  exists daubert_motion. split; reflexivity.
Defined.

(** *** The progress tracker *)

Lemma currentStageIndex_declared d :
  currentStageIndex (Declared d)
  = Normal match d with anonymization => 1 | _ => -1 end.
Proof. destruct d; vm_compute; reflexivity. Qed.

Lemma marks_no_row_declared st d :
  stage st = Declared d -> d <> anonymization -> marks_no_row st.
Proof.
  intros Hs Hd current. rewrite Hs, currentStageIndex_declared.
  intros [= <-] index Hi. unfold isActive, isCompleted.
  destruct d; try congruence; split; lia.
Qed.

Lemma marks_no_row_mk d pr ag msg :
  d <> anonymization -> marks_no_row (mkStatus (Declared d) pr ag msg).
Proof. apply marks_no_row_declared. reflexivity. Qed.

Lemma marks_no_row_proto st key : stage st = Proto key -> marks_no_row st.
Proof. intros Hs current. rewrite Hs. discriminate. Qed.

Lemma lookup_progressMap_marks key pr ag msg :
  marks_no_row (mkStatus (lookup_progressMap key) pr ag msg).
Proof.
  unfold lookup_progressMap.
  destruct (ErrorHandler.assoc progressMap key) as [d|] eqn:Ha.
  - apply (marks_no_row_declared (mkStatus (Declared d) pr ag msg) d eq_refl).
    unfold progressMap in Ha. simpl in Ha.
    repeat match type of Ha with
    | (if ?b then _ else _) = _ => destruct b; [injection Ha as <-; discriminate|]
    end.
    discriminate.
  - destruct (inherited key).
    + apply (marks_no_row_proto (mkStatus (Proto key) pr ag msg) key eq_refl).
    + apply (marks_no_row_declared (mkStatus (Declared uploading) pr ag msg)
               uploading eq_refl). discriminate.
Qed.

Lemma step_emitted_marks s occ :
  Forall marks_no_row (emitted s) -> Forall marks_no_row (emitted (step s occ)).
Proof.
  intros H. destruct occ as [e ev].
  destruct ev as [|x|data|data|data|err]; simpl; auto.
  - destruct (connected s); [|exact H].
    destruct (status_of_update data) as [st|] eqn:Hst; [|exact H]. simpl.
    apply Forall_app. split; [exact H|]. constructor; [|constructor].
    unfold status_of_update in Hst.
    destruct (get data "stage") as [v|]; simpl in Hst; [|discriminate].
    destruct (to_string v) as [key|]; simpl in Hst; [|discriminate].
    destruct (get data "progress"); simpl in Hst; [|discriminate].
    destruct (get data "agent"); simpl in Hst; [|discriminate].
    injection Hst as <-. apply lookup_progressMap_marks.
  - destruct (connected s); [|exact H]. unfold on_brief_complete.
    destruct (get data "success") as [ok|]; [|exact H].
    destruct (truthy ok).
    + destruct (response_of_complete _ _); exact H.
    + match goal with |- context [match ?c with Normal _ => _ | Throw _ => _ end] =>
        destruct c end; exact H.
  - destruct (on_then data) as [st|x] eqn:Hst.
    + simpl. apply Forall_app. split; [exact H|]. constructor; [|constructor].
      unfold on_then in Hst.
      destruct (get data "success") as [ok|]; simpl in Hst; [|discriminate].
      destruct (truthy ok).
      * injection Hst as <-. apply marks_no_row_mk. discriminate.
      * destruct (get data "error") as [v|]; simpl in Hst; [|discriminate].
        destruct (to_string _); discriminate.
    + unfold on_catch. destruct (ErrorHandler.parseApiError _ _); exact H.
  - unfold on_catch. destruct (ErrorHandler.parseApiError _ _); exact H.
Qed.

Lemma on_event_marks sr occ :
  Forall marks_no_row (emitted (snd sr)) ->
  (forall st, generationStatus (fst sr) = Some st -> marks_no_row st) ->
  Forall marks_no_row (emitted (snd (on_event sr occ)))
  /\ (forall st, generationStatus (fst (on_event sr occ)) = Some st -> marks_no_row st).
Proof.
  destruct sr as [s r]. unfold on_event. cbn [fst snd]. intros He Hs.
  pose proof (step_emitted_marks r occ He) as He'.
  set (r' := step r occ) in *.
  destruct (setGenerationStatus_fold_keeps
              (skipn (List.length (emitted r)) (emitted r')) s)
    as (_ & _ & _ & Hfold).
  set (s1 := fold_left _ _ s) in *.
  assert (Hs1 : forall st, generationStatus s1 = Some st -> marks_no_row st).
  { apply Hfold; [|exact Hs].
    rewrite <- (firstn_skipn (List.length (emitted r)) (emitted r')) in He'.
    apply Forall_app in He'. apply He'. }
  split; [exact He'|].
  destruct (settled (promise r') && negb (settled (promise r))); [|exact Hs1].
  destruct (promise r') as [|result|err]; simpl; [exact Hs1 | |];
    intros st [= <-]; apply marks_no_row_mk; discriminate.
Qed.

Lemma fold_on_event_marks tr sr :
  Forall marks_no_row (emitted (snd sr)) ->
  (forall st, generationStatus (fst sr) = Some st -> marks_no_row st) ->
  forall st,
    generationStatus (fst (fold_left on_event tr sr)) = Some st -> marks_no_row st.
Proof.
  revert sr. induction tr as [|occ tr IH]; intros sr He Hs; simpl; [exact Hs|].
  destruct (on_event_marks sr occ He Hs) as [He' Hs']. apply IH; assumption.
Qed.

(** X7.  Whatever the server sends during a generation, the progress
    tracker marks no row as active or completed for the status the component
    holds: the only stage name contained in a row title is [anonymization],
    which neither the service nor the component ever sets. *)
Theorem tracker_never_marks_a_row :
  forall s tr s' r st,
    session s tr = (s', Some r) ->
    generationStatus s' = Some st ->
    marks_no_row st.
Proof.
  intros s tr s' r st Hs Hst. unfold session in Hs.
  destruct (handleGenerateBrief s) as [s0 [req|]] eqn:Hg; [|discriminate].
  pose proof (fold_on_event_marks tr (s0, start)) as H.
  destruct (fold_left on_event tr (s0, start)) as [s1 r1].
  injection Hs as <- <-. apply H; [constructor | | exact Hst].
  cbn [fst]. unfold handleGenerateBrief in Hg.
  destruct (selectedBriefType s); [|discriminate].
  destruct (_ || _); [discriminate|]. injection Hg as <- _.
  simpl. intros st' [= <-]. apply marks_no_row_mk. discriminate.
Qed.

Lemma tracker_never_marks_a_row_witness :
  marks_no_row (mkStatus (Declared strategic_analysis) (VNum 35)
                  (VStr "Claude Opus 4") (VStr "Strategic analysis")).
Proof.
  eapply (tracker_never_marks_a_row Cases.ready
            (firstn 3 (successful_run 2000))); reflexivity.
Defined.

End AppViewFacts.

(** ** More on the service *)
Section ApiMoreFacts.

Import Api ApiMore Scenarios.

Lemma step_stays_disconnected s occ :
  connected s = false -> connected (step s occ) = false.
Proof.
  intros H. destruct occ as [e ev].
  destruct ev as [|x|data|data|data|err]; simpl; auto.
  - rewrite H. exact H.
  - rewrite H. exact H.
  - destruct (on_then data); simpl; [exact H | apply on_catch_disconnects].
  - apply on_catch_disconnects.
Qed.

Lemma socket_message_ignored s occ :
  connected s = false -> is_socket_message occ = true -> step s occ = s.
Proof.
  intros H Hm. destruct occ as [e ev].
  destruct ev; try discriminate; simpl; rewrite H; reflexivity.
Qed.

Lemma socket_messages_ignored later :
  forall s,
    connected s = false -> forallb is_socket_message later = true ->
    fold_left step later s = s.
Proof.
  induction later as [|occ later IH]; intros s H Hl; simpl; [reflexivity|].
  simpl in Hl. apply andb_true_iff in Hl as [Ho Hl].
  rewrite (socket_message_ignored s occ H Ho). apply IH; assumption.
Qed.

Lemma brief_complete_disconnects s e data :
  connected (step s (e, brief_complete data)) = false.
Proof.
  simpl. destruct (connected s) eqn:H; [apply on_brief_complete_disconnects | exact H].
Qed.

(** X8.  The first [brief_complete] message ends the listening: whatever
    happened before and whether or not it settled the promise, every socket
    message after it, a second [brief_complete] included, changes nothing
    (no status is passed on, the promise keeps its state). *)
Theorem nothing_is_heard_after_brief_complete :
  forall tr e data later,
    forallb is_socket_message later = true ->
    generateBrief (tr ++ (e, brief_complete data) :: later)
    = generateBrief (tr ++ [(e, brief_complete data)]).
Proof.
  intros tr e data later H.
  change ((e, brief_complete data) :: later)
    with ([(e, brief_complete data)] ++ later)%list.
  rewrite app_assoc, generateBrief_app.
  apply socket_messages_ignored; [|exact H].
  rewrite generateBrief_snoc. apply brief_complete_disconnects.
Qed.

Lemma nothing_is_heard_after_brief_complete_witness :
  generateBrief
    ([(browser 1000, connect)]
       ++ (browser 1500,
           brief_complete (VObj [("success", VBool false); ("error", VStr "busy")]))
       :: [(browser 1600, brief_complete completion_message)])
  = generateBrief
      ([(browser 1000, connect)]
         ++ [(browser 1500,
              brief_complete (VObj [("success", VBool false); ("error", VStr "busy")]))]).
Proof. apply nothing_is_heard_after_brief_complete. reflexivity. Defined.

(** X9.  A [brief_complete] message that does not report success, handled
    while the run is pending and connected, rejects the run with
    [SERVER_ERROR] and status 500, whatever the cause: the message is the
    reported error, or [Server error] when none is reported. *)
Theorem failed_generation_is_a_server_error :
  forall s e data ok reported text,
    promise s = Pending -> connected s = true ->
    get data "success" = Normal ok -> truthy ok = false ->
    get data "error" = Normal reported ->
    to_string (or_else reported (VStr "Server error")) = Normal text ->
    step s (e, brief_complete data)
    = mkRun (Rejected (server_error text)) (emitted s) false.
Proof.
  intros s e data ok reported text Hp Hc Hok Ht Hr Htext.
  simpl. rewrite Hc. unfold on_brief_complete. rewrite Hok, Ht, Hr. cbn.
  unfold ErrorHandler.new_ApiError, ErrorHandler.Error_message.
  assert (Hm : match or_else reported (VStr "Server error") with
               | VUndefined => Normal ""
               | _ => to_string (or_else reported (VStr "Server error"))
               end = Normal text).
  { unfold or_else in *. destruct (truthy reported) eqn:E; [|exact Htext].
    destruct reported; try discriminate; exact Htext. }
  rewrite Hm. cbn. rewrite Hp. reflexivity.
Qed.

Lemma failed_generation_is_a_server_error_witness :
  step start (browser 9000,
              brief_complete (VObj [("success", VBool false);
                                    ("error", VStr "Anthropic API overloaded")]))
  = mkRun (Rejected (server_error "Anthropic API overloaded")) [] false.
Proof.
  eapply (failed_generation_is_a_server_error start); reflexivity.
Defined.

(** X10.  When the server answers the POST without success, a pending run
    is rejected with an error filed by the text of the server's message
    alone: [GENERATION_TIMEOUT] if the text contains [timeout], else
    [NETWORK_ERROR] if the browser is offline, else [UNKNOWN_ERROR]; the
    socket is disconnected. *)
Theorem refused_post_is_filed_by_its_text :
  forall s e data ok reported text,
    promise s = Pending ->
    get data "success" = Normal ok -> truthy ok = false ->
    get data "error" = Normal reported ->
    to_string (or_else reported (VStr "Failed to start generation")) = Normal text ->
    step s (e, post_fulfilled data)
    = mkRun (Rejected (filed_by_text (online e) text)) (emitted s) false.
Proof.
  intros s e data ok reported text Hp Hok Ht Hr Htext.
  simpl. unfold on_then. rewrite Hok. cbn. rewrite Ht, Hr. cbn. rewrite Htext. cbn.
  unfold on_catch, ErrorHandler.parseApiError, filed_by_text. cbn.
  destruct (is_substring "timeout" text); cbn; [rewrite Hp; reflexivity|].
  destruct (online e); cbn.
  - unfold ErrorHandler.new_ApiError, ErrorHandler.Error_message, or_else. cbn.
    destruct (String.eqb text "") eqn:E; cbn; rewrite Hp; reflexivity.
  - rewrite Hp. reflexivity.
Qed.

Lemma refused_post_is_filed_by_its_text_witness :
  step start (browser 1010,
              post_fulfilled (VObj [("success", VBool false);
                                    ("error", VStr "Expert not found in corpus")]))
  = mkRun (Rejected (filed_by_text true "Expert not found in corpus")) [] false.
Proof.
  eapply (refused_post_is_filed_by_its_text start); reflexivity.
Defined.

(** X11.  The body of the POST names the strategy [support] exactly for the
    two response brief types and [challenge] for the others, gives as motion
    type a title of the mapping (never the identifier of the brief type), and
    passes the expert name and the jurisdiction on unchanged. *)
Theorem post_body_strategy_and_motion :
  forall r,
    strategy (post_body r) = (if is_response (briefType r) then "support" else "challenge")
    /\ In (BriefType_name (briefType r), motion_type (post_body r)) briefTypeMapping
    /\ expert_name (post_body r) = expertName r
    /\ body_jurisdiction (post_body r) = jurisdiction r.
Proof.
  intros [bt fs ex ju]. destruct bt; cbn; repeat split; tauto.
Qed.

End ApiMoreFacts.

(** ** More on the error translation *)
Section ErrorHandlerMoreFacts.

Import ErrorHandler ErrorHandlerMore Scenarios.

Lemma assoc_In {A} (l : list (string * A)) k a :
  assoc l k = Some a -> exists k', String.eqb k' k = true /\ In (k', a) l.
Proof.
  induction l as [|[k' a'] l IH]; simpl; [discriminate|].
  destruct (String.eqb k' k) eqn:E.
  - intros [= <-]. exists k'. auto.
  - intros H. destruct (IH H) as (k'' & Hk & Hin). exists k''. auto.
Qed.

Lemma ErrorMessages_sound : forallb sound_entry ErrorMessages = true.
Proof. vm_compute. reflexivity. Qed.

Lemma lookup_sound key d :
  assoc ErrorMessages key = Some d ->
  d_code d = key /\ In key ErrorCodes /\ d_userMessage d <> ""
  /\ d_recoveryAction d <> "".
Proof.
  intros H. apply assoc_In in H as (k' & Hk & Hin).
  apply String.eqb_eq in Hk. subst k'.
  pose proof ErrorMessages_sound as Hs. rewrite forallb_forall in Hs.
  apply Hs in Hin. unfold sound_entry in Hin. cbn [fst snd] in Hin.
  repeat rewrite andb_true_iff in Hin.
  destruct Hin as [[[H1 H2] H3] H4].
  apply String.eqb_eq in H1. rewrite negb_true_iff in H3, H4.
  apply String.eqb_neq in H3, H4.
  apply existsb_exists in H2 as (c & Hc & Hce). apply String.eqb_eq in Hce.
  split; [symmetry; exact H1|]. split; [rewrite H1, Hce; exact Hc|].
  split; assumption.
Qed.

Lemma ErrorCodes_have_entries c :
  In c ErrorCodes -> exists d, assoc ErrorMessages c = Some d.
Proof.
  assert (H : forallb (fun c => match assoc ErrorMessages c with
                                | Some _ => true | None => false end)
                ErrorCodes = true) by (vm_compute; reflexivity).
  rewrite forallb_forall in H. intros Hc. specialize (H c Hc).
  destruct (assoc ErrorMessages c) as [d|]; [eauto | discriminate].
Qed.

(** X12.  [ErrorMessages] covers [ErrorCodes] exactly: every code has an
    entry, every entry found under a key carries that key as its code, one of
    the codes, with a user message and a recovery action that are not
    empty. *)
Theorem ErrorMessages_covers_ErrorCodes :
  (forall c, In c ErrorCodes -> exists d, assoc ErrorMessages c = Some d)
  /\ (forall key d,
        assoc ErrorMessages key = Some d ->
        d_code d = key /\ In key ErrorCodes /\ d_userMessage d <> ""
        /\ d_recoveryAction d <> "").
Proof. split; [apply ErrorCodes_have_entries | apply lookup_sound]. Qed.

Lemma ErrorMessages_covers_ErrorCodes_witness :
  exists d, assoc ErrorMessages "RATE_LIMIT_EXCEEDED" = Some d.
Proof.
  apply (proj1 ErrorMessages_covers_ErrorCodes). simpl. tauto.
Defined.

Lemma own_well_formed d text status :
  (exists key, assoc ErrorMessages key = Some d) ->
  well_formed (error_of d text status).
Proof.
  intros [key H]. apply lookup_sound in H as (Hc & Hin & Hm & _).
  unfold well_formed, error_of. simpl. split.
  - exists (d_code d). split; [reflexivity | rewrite Hc; exact Hin].
  - exists (d_userMessage d). auto.
Qed.

Lemma new_ApiError_own key d m status e :
  lookup_ErrorMessages key = Own d ->
  new_ApiError (lookup_ErrorMessages key) m status = Normal e ->
  well_formed e.
Proof.
  intros Hl. rewrite Hl. unfold new_ApiError.
  destruct (Error_message m) as [text|]; simpl; [|discriminate].
  intros [= <-]. apply (own_well_formed d text status).
  unfold lookup_ErrorMessages in Hl.
  destruct (assoc ErrorMessages key) as [d'|] eqn:Ha.
  - injection Hl as ->. eauto.
  - destruct (inherited key); discriminate.
Qed.

Lemma new_ApiError_literal c m status e :
  In c ErrorCodes ->
  new_ApiError (details_of c) m status = Normal e -> well_formed e.
Proof.
  intros Hc. destruct (ErrorCodes_have_entries c Hc) as [d Hd].
  apply (new_ApiError_own c d). unfold lookup_ErrorMessages. rewrite Hd. reflexivity.
Qed.

Ltac literal_code :=
  match goal with
  | H : new_ApiError (details_of ?c) _ _ = Normal _ |- well_formed _ =>
      apply (new_ApiError_literal c _ _ _ ltac:(simpl; tauto) H)
  end.

Ltac run_bind :=
  repeat (unfold mbind, completion_bind, bind_flip, bind;
          match goal with
          | |- (match ?c with Normal _ => _ | Throw _ => _ end) = Normal _ -> _ =>
              destruct c; [|discriminate]
          | |- (if ?b then _ else _) = Normal _ -> _ => destruct b
          end).

Lemma by_status_well_formed error status data e :
  by_status error status data = Normal e -> well_formed e.
Proof. unfold by_status. run_bind; intros H; literal_code. Qed.

(** X13.  Whenever [parseApiError] returns, the error has a code of
    [ErrorCodes] and a user message that is not empty, with one exception:
    when the body's [error_code] names a member of [Object.prototype]
    ([constructor], [toString], ...), the error has neither code nor user
    message. *)
Theorem parseApiError_returns_well_formed_or_inherited :
  forall online error e,
    parseApiError online error = Normal e ->
    well_formed e
    \/ (exists key, backend_key error = Normal (Some key) /\ inherited key = true
                    /\ code e = None /\ userMessage e = None).
Proof.
  intros online error e. unfold parseApiError, backend_key.
  unfold mbind, completion_bind, bind_flip, bind.
  destruct (get error "response") as [response|]; [|discriminate].
  destruct (truthy response).
  - destruct (get response "status") as [status|]; [|discriminate].
    destruct (get response "data") as [data|]; [|discriminate].
    destruct (opt_get data "error_code") as [ec|]; [|discriminate].
    destruct (truthy ec).
    + destruct (to_string ec) as [key|]; [|discriminate].
      destruct (lookup_ErrorMessages key) as [d| |] eqn:Hl.
      * destruct (get data "message") as [dm|]; [|discriminate].
        destruct (get error "message") as [em|]; [|discriminate].
        destruct (new_ApiError (Own d) (or_else dm em) status) as [e'|] eqn:Hn;
          [|discriminate].
        intros [= <-]. left. rewrite <- Hl in Hn.
        apply (new_ApiError_own key d _ _ _ Hl Hn).
      * destruct (get data "message") as [dm|]; [|discriminate].
        destruct (get error "message") as [em|]; [|discriminate].
        unfold new_ApiError, mbind, completion_bind, bind_flip, bind.
        destruct (Error_message (or_else dm em)) as [text|]; [|discriminate].
        intros [= <-]. right. exists key. split; [reflexivity|].
        unfold lookup_ErrorMessages in Hl.
        destruct (assoc ErrorMessages key); [discriminate|].
        destruct (inherited key); [auto | discriminate].
      * intros H. left. apply (by_status_well_formed _ _ _ _ H).
    + intros H. left. apply (by_status_well_formed _ _ _ _ H).
  - destruct (get error "code") as [ecode|]; [|discriminate].
    destruct (get error "message") as [emsg|]; [|discriminate].
    match goal with
    | |- (match ?c with Normal _ => _ | Throw _ => _ end) = _ -> _ =>
        destruct c as [t|]; [|discriminate]
    end.
    destruct (truthy t); [intros H; left; literal_code|].
    destruct (_ || _)%bool; intros H; left; literal_code.
Qed.

Lemma parseApiError_returns_well_formed_or_inherited_witness :
  well_formed
    (mkApiError "Payload too large" (Some "DOCUMENT_TOO_LARGE")
       (Some "The uploaded document exceeds the maximum size limit (100MB).")
       (Some "Please reduce the file size or split into multiple documents.")
       (VNum 413)).
Proof.
  destruct (parseApiError_returns_well_formed_or_inherited true
              (axios_error 413 VNull) _ eq_refl) as [H|(key & H & _)];
    [exact H | discriminate H].
Defined.

Lemma code_not_empty key : In key ErrorCodes -> String.eqb key "" = false.
Proof.
  assert (H : forallb (fun c => negb (String.eqb c "")) ErrorCodes = true)
    by (vm_compute; reflexivity).
  rewrite forallb_forall in H. intros Hk. apply H in Hk.
  apply negb_true_iff in Hk. exact Hk.
Qed.

(** X14.  A code of [ErrorCodes] sent by the backend decides the error,
    whatever the HTTP status (400 included): the error carries the texts of
    that code, the status as received, and as message the body's message or,
    if that is empty, the message of the error itself. *)
Theorem backend_code_overrides_status :
  forall online text status key message d,
    assoc ErrorMessages key = Some d ->
    parseApiError online (backend_error text status key message)
    = Normal (error_of d (if String.eqb message "" then text else message) status).
Proof.
  intros online text status key message d Hd.
  pose proof (lookup_sound key d Hd) as (_ & Hin & _).
  apply code_not_empty in Hin.
  unfold parseApiError, backend_error.
  unfold mbind, completion_bind, bind_flip, bind. cbn.
  rewrite Hin. cbn. unfold lookup_ErrorMessages. rewrite Hd.
  unfold new_ApiError, Error_message, or_else, error_of.
  unfold mbind, completion_bind, bind_flip, bind. cbn.
  destruct (String.eqb message ""); reflexivity.
Qed.

Lemma backend_code_overrides_status_witness :
  parseApiError true
    (backend_error "Request failed with status code 400" (VNum 400)
       "NO_DOCUMENTS_PROVIDED" "")
  = Normal (mkApiError "Request failed with status code 400"
              (Some "NO_DOCUMENTS_PROVIDED")
              (Some "No documents were provided for analysis.")
              (Some "Please upload at least one document to generate a brief.")
              (VNum 400)).
Proof.
  apply (backend_code_overrides_status true _ _ "NO_DOCUMENTS_PROVIDED" ""
           (mkDetails "NO_DOCUMENTS_PROVIDED"
              "No documents were provided for analysis."
              "Please upload at least one document to generate a brief.")).
  reflexivity.
Defined.

Lemma opt_get_normal v k : exists x, opt_get v k = Normal x.
Proof.
  unfold opt_get. destruct v; simpl; eauto;
    destruct (String.eqb k "length"); eauto.
Qed.

(** X15.  For the statuses 401, 403, 413, 429 and 504, a response without
    backend code is answered with a fixed code and message whatever its body
    is ([null] included): [parseApiError] returns and does not throw. *)
Theorem fixed_statuses_never_throw :
  forall online status data c text,
    fixed_status status = Some (c, text) ->
    (forall ec, opt_get data "error_code" = Normal ec -> truthy ec = false) ->
    exists d,
      assoc ErrorMessages c = Some d
      /\ parseApiError online (axios_error status data)
         = Normal (error_of d text (VNum status)).
Proof.
  intros online status data c text Hf Hec.
  destruct (opt_get_normal data "error_code") as [ec Hget].
  specialize (Hec ec Hget).
  unfold fixed_status in Hf.
  repeat match type of Hf with
  | (if ?b then _ else _) = _ =>
      let E := fresh "E" in
      destruct b eqn:E;
      [ apply Z.eqb_eq in E; subst status; injection Hf as <- <-;
        eexists; split; [reflexivity|];
        unfold parseApiError, axios_error;
        unfold mbind, completion_bind, bind_flip, bind; cbn;
        rewrite Hget, Hec; reflexivity
      | ]
  end.
  discriminate.
Qed.

Lemma fixed_statuses_never_throw_witness :
  exists d,
    assoc ErrorMessages "RATE_LIMIT_EXCEEDED" = Some d
    /\ parseApiError false (axios_error 429 VNull)
       = Normal (error_of d "Rate limit exceeded" (VNum 429)).
Proof.
  apply (fixed_statuses_never_throw false 429 VNull); [reflexivity|].
  intros ec [= <-]. reflexivity.
Defined.

(** X16.  An error without a response, with a string for message and for
    code, is always translated: as [GENERATION_TIMEOUT] if the code is
    [ECONNABORTED] or the message contains [timeout], else as
    [NETWORK_ERROR] if the code is [ERR_NETWORK] or the browser is offline,
    else as [UNKNOWN_ERROR]; the result is well-formed and has no status. *)
Theorem network_errors_are_filed :
  forall online code_name text,
    exists e,
      parseApiError online (network_error code_name text) = Normal e
      /\ code e = Some (network_class online code_name text)
      /\ well_formed e /\ statusCode e = VUndefined.
Proof.
  intros online code_name text.
  unfold parseApiError, network_error, network_class.
  unfold mbind, completion_bind, bind_flip, bind. cbn.
  destruct (String.eqb code_name "ECONNABORTED"); cbn.
  - eexists. split; [reflexivity|]. split; [reflexivity|].
    split; [apply well_formedb_spec; reflexivity | reflexivity].
  - destruct (is_substring "timeout" text); cbn.
    + eexists. split; [reflexivity|]. split; [reflexivity|].
      split; [apply well_formedb_spec; reflexivity | reflexivity].
    + destruct (String.eqb code_name "ERR_NETWORK" || negb online)%bool; cbn.
      * eexists. split; [reflexivity|]. split; [reflexivity|].
        split; [apply well_formedb_spec; reflexivity | reflexivity].
      * unfold new_ApiError, Error_message, or_else.
        unfold mbind, completion_bind, bind_flip, bind. cbn.
        destruct (negb (String.eqb text "")); cbn;
          (eexists; split; [reflexivity|]; split; [reflexivity|];
           split; [apply well_formedb_spec; reflexivity | reflexivity]).
Qed.

End ErrorHandlerMoreFacts.

(** ** More on the web application *)
Section WebAppMoreFacts.

Import WebApp WebAppMore Scenarios.

Variable stringify : list (list (string * value)) -> string.
Variable updateProcessingProgress : value -> value -> action unit.
Variable reset_form :
  string -> gmap (string * string) value -> gmap (string * string) value.

Lemma frames_bind {A B} (a : action A) (k : A -> action B) :
  frames a -> (forall x, frames (k x)) -> frames (a ≫= k).
Proof.
  intros Ha Hk u. unfold mbind, action_bind, seq.
  destruct (Ha u) as [H1 H2]. destruct (a u) as [[x|err] u']; simpl in *.
  - destruct (Hk x u') as [H3 H4]. split; congruence.
  - auto.
Qed.

Lemma frames_lift {A} (c : completion A) : frames (lift c).
Proof. intros u. auto. Qed.

Lemma frames_read {A} (f : ui -> A) : frames (read f).
Proof. intros u. auto. Qed.

Lemma frames_ret {A} (x : A) : frames (ret x).
Proof. intros u. auto. Qed.

Lemma frames_set_dom el pr v : frames (set_dom el pr v).
Proof. intros u. auto. Qed.

Lemma frames_update_dom f : frames (update_dom f).
Proof. intros u. auto. Qed.

Lemma frames_alert msg : frames (alert msg).
Proof. intros u. auto. Qed.

Lemma frames_fetch r : frames (fetch r).
Proof. intros u. auto. Qed.

Lemma frames_set_currentBriefTask v : frames (set_currentBriefTask v).
Proof. intros u. auto. Qed.

Ltac frame :=
  repeat first
    [ apply frames_lift | apply frames_read | apply frames_ret
    | apply frames_set_dom | apply frames_update_dom | apply frames_alert
    | apply frames_fetch
    | apply frames_set_currentBriefTask
    | apply frames_bind; [|intros ?]
    | match goal with |- frames (if ?b then _ else _) => destruct b end
    | match goal with |- frames (match ?h with [] => _ | _ :: _ => _ end) =>
        destruct h end ].

Lemma frames_updateBriefProgress stage progress :
  frames (updateBriefProgress stage progress).
Proof. unfold updateBriefProgress. frame. Qed.

Lemma frames_updateHistoryTable : frames updateHistoryTable.
Proof.
  intros u. apply updateHistoryTable_keeps.
Qed.

Lemma frames_handleProcessingComplete data :
  frames (handleProcessingComplete reset_form data).
Proof. unfold handleProcessingComplete. frame. Qed.

Lemma frames_keeps {A} (a : action A) : frames a -> keeps stringify a.
Proof.
  intros Ha u [Hl Hs]. destruct (Ha u) as [H1 H2].
  unfold kept. rewrite H1, H2. auto.
Qed.

Lemma keeps_bind {A B} (a : action A) (k : A -> action B) :
  keeps stringify a -> (forall x, keeps stringify (k x)) ->
  keeps stringify (a ≫= k).
Proof.
  intros Ha Hk u Hu. unfold mbind, action_bind, seq.
  specialize (Ha u Hu). destruct (a u) as [[x|err] u']; simpl in *.
  - apply Hk, Ha.
  - exact Ha.
Qed.

Lemma keeps_addToHistory date briefData :
  keeps stringify (addToHistory stringify date briefData).
Proof.
  intros u _.
  unfold addToHistory, mbind, action_bind, seq, read, set_briefHistory,
    setItem, write. simpl.
  match goal with |- kept _ (snd (updateHistoryTable ?v)) =>
    destruct (frames_updateHistoryTable v) as [Hh Hl] end.
  unfold kept. rewrite Hh, Hl. simpl. split.
  - rewrite length_firstn. lia.
  - left. apply lookup_insert_eq.
Qed.

Lemma keeps_handleBriefComplete date data :
  keeps stringify (handleBriefComplete stringify date data).
Proof.
  unfold handleBriefComplete.
  repeat first
    [ apply keeps_addToHistory
    | apply frames_keeps; frame; fail
    | apply keeps_bind; [|intros ?]
    | match goal with |- keeps _ (if ?b then _ else _) => destruct b end ].
Qed.

Hypothesis helper_frames :
  forall stage progress, frames (updateProcessingProgress stage progress).

Lemma keeps_listener date ev :
  keeps stringify (listener stringify updateProcessingProgress reset_form date ev).
Proof.
  unfold listener.
  apply keeps_bind; [apply frames_keeps; frame|]. intros task_id.
  apply keeps_bind; [apply frames_keeps; frame|]. intros current.
  destruct (strict_eq task_id current); [|apply frames_keeps; frame].
  destruct ev as [data|data|data|data].
  - apply frames_keeps. frame; apply frames_updateBriefProgress.
  - apply keeps_handleBriefComplete.
  - apply frames_keeps. frame; apply helper_frames.
  - apply frames_keeps, frames_handleProcessingComplete.
Qed.

(** X17.  Provided the helper [updateProcessingProgress] leaves the history
    and the storage alone, no sequence of socket events breaks the
    bookkeeping of the history: it never holds more than 50 entries, and
    what is stored under [lexicon_history] is always its serialisation (or
    nothing, as long as the history is empty and nothing was stored). *)
Theorem history_stays_bounded_and_stored :
  forall (events : list (string * socket_event)) u,
    kept stringify u ->
    kept stringify
      (fold_left
         (fun u' ev => on_socket stringify updateProcessingProgress reset_form (fst ev) (snd ev) u')
         events u).
Proof.
  induction events as [|[date ev] events IH]; intros u Hu; simpl; [exact Hu|].
  apply IH. unfold on_socket, exec. apply keeps_listener, Hu.
Qed.

End WebAppMoreFacts.

Lemma history_stays_bounded_and_stored_witness :
  WebAppMore.kept (fun _ => "[]")
    (fold_left
       (fun u' ev => WebApp.on_socket (fun _ => "[]") (fun _ _ => WebApp.ret tt)
                       (fun _ page => page)
                       (fst ev) (snd ev) u')
       [("2025-07-22T10:00:00.000Z",
         WebApp.brief_complete
           (VObj [("task_id", VStr "task-1"); ("success", VBool true);
                  ("full_result", VObj [("expert", VStr "Dr. A"); ("length", VNum 9)])]))]
       Scenarios.generating).
Proof.
  apply history_stays_bounded_and_stored.
  - intros stage progress u. auto.
  - split; [simpl; lia | right; split; reflexivity].
Defined.

Section WebAppFlowFacts.

Import WebApp WebAppMore Scenarios.

Variable stringify : list (list (string * value)) -> string.
Variable updateProcessingProgress : value -> value -> action unit.
Variable reset_form :
  string -> gmap (string * string) value -> gmap (string * string) value.

(** X18.  The task identifier is tracked by identity.  Once the server has
    accepted the request with identifier [t], [t] is the tracked task; a
    progress event carrying [t] is then shown (stage text and bar width) if
    [t] is a string, a number or another primitive, and ignored if [t] is an
    object or an array, which is identical to no value the socket
    delivers. *)
Theorem task_id_is_tracked_by_identity :
  forall date t stage progress width u,
    to_string progress = Normal width ->
    let u1 := handleGenerate_settle (Normal (started t)) u in
    let u2 := on_socket stringify updateProcessingProgress reset_form date
                (brief_progress (progress_of t stage progress)) u1 in
    currentBriefTask u1 = t
    /\ (strict_eq t t = true ->
        dom u2 !! ("progress-stage", "textContent") = Some stage
        /\ dom u2 !! ("#generation-progress .progress-bar", "style.width")
           = Some (VStr (width ++ "%")))
    /\ (strict_eq t t = false -> u2 = u1).
Proof.
  intros date t stage progress width u Hw u1 u2. subst u1 u2.
  unfold handleGenerate_settle, handleGenerate_response, started, progress_of,
    on_socket, exec, listener, updateBriefProgress.
  unfold mbind, action_bind, seq, lift, read, set_currentBriefTask, write,
    completion_bind, bind_flip, bind. cbn.
  split; [reflexivity|]. split; intros Ht; rewrite Ht; cbn.
  - rewrite Hw. cbn. split.
    + apply lookup_insert_eq.
    + rewrite lookup_insert_ne by discriminate. apply lookup_insert_eq.
  - reflexivity.
Qed.

(** X19.  A [processing_complete] event for the tracked task sends nothing
    but the two reloads (experts, status), and sends them exactly when it
    reports success and its listener runs to the end, which takes a
    [summary] whose three counts can be printed; it then raises one alert.
    On a failure report, or when the listener throws on the way, no request
    is added.  The history and the tracked tasks stay as they were. *)
Theorem processing_complete_only_reloads :
  forall date data t u,
    get data "task_id" = Normal t ->
    strict_eq t (currentProcessTask u) = true ->
    let outcome := fst (listener stringify updateProcessingProgress reset_form date
                          (processing_complete data) u) in
    let u' := on_socket stringify updateProcessingProgress reset_form date
                (processing_complete data) u in
    (fetches u' = (fetches u ++ reloads)%list
     <-> reports_success data /\ outcome = Normal tt)
    /\ (fetches u' = fetches u <-> ~ (reports_success data /\ outcome = Normal tt))
    /\ (outcome = Normal tt -> exists msg, alerts u' = (alerts u ++ [msg])%list)
    /\ briefHistory u' = briefHistory u
    /\ currentProcessTask u' = currentProcessTask u
    /\ currentBriefTask u' = currentBriefTask u.
Proof.
  intros date data t u Ht Heq outcome u'. subst outcome u'.
  assert (Hne : forall l : list request, l <> (l ++ reloads)%list).
  { intros l H. apply (f_equal (@List.length _)) in H.
    rewrite length_app in H. simpl in H. lia. }
  unfold on_socket, exec, reports_success, reloads in *.
  unfold listener, handleProcessingComplete.
  unfold mbind, action_bind, seq, lift, read. cbn.
  rewrite Ht. cbn. rewrite Heq.
  destruct (get data "success") as [ok|err] eqn:Hok; cbn;
    [destruct (truthy ok) eqn:Htr;
     repeat (match goal with
             | |- context [match ?c with Normal _ => _ | Throw _ => _ end] =>
                 destruct c as [?|?] eqn:?
             end; cbn);
     rewrite <- ?app_assoc; cbn|];
    repeat split; try reflexivity; intros;
    try match goal with |- ~ _ => intros ? end;
    repeat match goal with
    | H : _ /\ _ |- _ => destruct H
    | H : ex _ |- _ => destruct H
    end;
    first
      [ congruence
      | match goal with
        | H : ?l = (?l ++ _ :: _)%list |- _ => exfalso; exact (Hne _ H)
        end
      | match goal with
        | H : (?l ++ _ :: _)%list = ?l |- _ =>
            exfalso; symmetry in H; exact (Hne _ H)
        end
      | match goal with
        | H : ~ _ |- _ => exfalso; apply H; split; solve [eauto]
        end
      | solve [eauto] ].
Qed.

End WebAppFlowFacts.

Lemma task_id_is_tracked_by_identity_witness :
  WebApp.dom
    (WebApp.on_socket (fun _ => "[]") (fun _ _ => WebApp.ret tt)
                       (fun _ page => page)
       "2025-07-22T10:00:00.000Z"
       (WebApp.brief_progress
          (WebAppMore.progress_of (VStr "task-7") (VStr "Legal research") (VNum 50)))
       (WebApp.handleGenerate_settle
          (Normal (WebAppMore.started (VStr "task-7"))) WebApp.initial))
    !! ("progress-stage", "textContent") = Some (VStr "Legal research").
Proof.
  destruct (task_id_is_tracked_by_identity (fun _ => "[]")
              (fun _ _ => WebApp.ret tt) (fun _ page => page) "2025-07-22T10:00:00.000Z"
              (VStr "task-7") (VStr "Legal research") (VNum 50) "50"
              WebApp.initial eq_refl) as (_ & H & _).
  apply (H eq_refl).
Defined.

Lemma processing_complete_only_reloads_witness :
  WebApp.fetches
    (WebApp.on_socket (fun _ => "[]") (fun _ _ => WebApp.ret tt)
       WebAppMore.empties_file_input "2025-07-22T10:00:00.000Z"
       (WebApp.processing_complete WebAppMore.processed) WebAppMore.processing)
  = [WebApp.mkFetch "/api/upload-documents" (Some (VArr [VStr "report.pdf"]));
     WebApp.mkFetch "/api/experts" None; WebApp.mkFetch "/api/status" None].
Proof.
  apply (processing_complete_only_reloads (fun _ => "[]") (fun _ _ => WebApp.ret tt)
           WebAppMore.empties_file_input "2025-07-22T10:00:00.000Z"
           WebAppMore.processed (VStr "proc-3") WebAppMore.processing
           eq_refl eq_refl).
  split; [exists (VBool true); split; reflexivity | reflexivity].
Defined.

(** ** More on the forms *)
Section FormFacts.

Import WebApp FileUpload.

(** X20.  With the expert name, the strategy and the motion type all filled
    in, [handleGenerate] sends exactly one request, to
    [/api/generate-brief], carrying these three values and nothing else,
    and shows the progress at 0% under [Initializing]; the tracked task is
    not touched before the server answers. *)
Theorem filled_form_sends_one_request :
  forall u,
    truthy (input_value "expert-name" u) = true ->
    truthy (input_value "strategy" u) = true ->
    truthy (input_value "motion-type" u) = true ->
    let u' := exec handleGenerate u in
    fetches u'
    = (fetches u
       ++ [mkFetch "/api/generate-brief"
             (Some (VObj [("expert_name", input_value "expert-name" u);
                          ("strategy", input_value "strategy" u);
                          ("motion_type", input_value "motion-type" u)]))])%list
    /\ dom u' !! ("progress-stage", "textContent") = Some (VStr "Initializing")
    /\ dom u' !! ("#generation-progress .progress-bar", "style.width")
       = Some (VStr "0%")
    /\ dom u' !! ("generation-progress", "style.display") = Some (VStr "block")
    /\ currentBriefTask u' = currentBriefTask u
    /\ alerts u' = alerts u.
Proof.
  intros u H1 H2 H3 u'. subst u'.
  unfold exec, handleGenerate, updateBriefProgress.
  unfold mbind, action_bind, seq, lift, read. cbn.
  rewrite H1, H2, H3. cbn.
  repeat split.
  - apply lookup_insert_eq.
  - rewrite lookup_insert_ne by discriminate. apply lookup_insert_eq.
  - rewrite lookup_insert_ne by discriminate.
    rewrite lookup_insert_ne by discriminate. apply lookup_insert_eq.
Qed.

End FormFacts.

Lemma filled_form_sends_one_request_witness :
  WebApp.dom (WebApp.exec WebApp.handleGenerate Scenarios.filled_form_no_documents)
    !! ("generation-progress", "style.display") = Some (VStr "block").
Proof.
  apply (filled_form_sends_one_request Scenarios.filled_form_no_documents);
    reflexivity.
Defined.

Section BadRequestFacts.

Import ErrorHandler ErrorHandlerMore Scenarios.

(** X22.  A 400 response whose body is an object with a string for its
    [message] and no backend code is always translated: as [INVALID_API_KEY]
    when the message mentions [API key], else as [INVALID_INPUT], with the
    body's message or, if that is empty, [Bad request]. *)
Theorem bad_request_with_text_is_translated :
  forall online text,
    exists d,
      assoc ErrorMessages
        (if is_substring "API key" text then "INVALID_API_KEY" else "INVALID_INPUT")
      = Some d
      /\ parseApiError online (axios_error 400 (VObj [("message", VStr text)]))
         = Normal (error_of d
                     (if is_substring "API key" text then text
                      else if String.eqb text "" then "Bad request" else text)
                     (VNum 400)).
Proof.
  intros online text.
  unfold parseApiError, axios_error, by_status.
  unfold mbind, completion_bind, bind_flip, bind. cbn.
  destruct (is_substring "API key" text); cbn.
  - eexists. split; reflexivity.
  - unfold new_ApiError, Error_message, or_else.
    unfold mbind, completion_bind, bind_flip, bind. cbn.
    destruct (String.eqb text ""); cbn; eexists; split; reflexivity.
Qed.

End BadRequestFacts.
